(** * The per-node xDS resource cache of marin3r (package [cache])

    A shallow embedding of the Go package [cache] (the only file of the
    discovery-service core): the type [Cache], a Go map from node
    identifiers to pointers to go-control-plane snapshots, and its methods.

    Go passes snapshots by pointer and item maps by reference, so the
    embedding keeps an explicit store with two kinds of cells: snapshot
    structs (the targets of [*xds_cache.Snapshot]) and item maps (the
    targets of [map[string]Resource] values).  Every method is a function
    from the store to an outcome: a normal return with the new store, or a
    run-time panic. *)

From Stdlib Require Import ZArith String Ascii List Lia DecimalString DecimalPos.
From stdpp Require Import base option strings list vector fin gmap.

Local Open Scope Z_scope.

(** ** Go's [int] and the two [strconv] functions the package calls *)

Module strconv.

(** [strconv.IntSize] on the 64-bit platforms the operator is built for. *)
Definition IntSize : Z := 64.
Definition maxInt : Z := 2 ^ (IntSize - 1) - 1.
Definition minInt : Z := - 2 ^ (IntSize - 1).
Definition maxUint64 : Z := 2 ^ 64 - 1.

(** Two's complement wrap-around of a mathematical integer into [int]. *)
Definition wrap_int (z : Z) : Z :=
  (z + 2 ^ (IntSize - 1)) mod 2 ^ IntSize - 2 ^ (IntSize - 1).

Inductive ErrKind := ErrSyntax | ErrRange.

(** [*strconv.NumError]: the failing function, its input and the cause. *)
Record NumError := mkNumError { Func : string; Num : string; Err : ErrKind }.

Definition syntaxError (fn s : string) : NumError := mkNumError fn s ErrSyntax.
Definition rangeError (fn s : string) : NumError := mkNumError fn s ErrRange.

(** The digit loop of [ParseUint] for base 10 and 64 bits: a byte that is
    not a decimal digit is a syntax error, an overflow of [uint64] a range
    error, whichever comes first. *)
Fixpoint parse_digits (s : string) (n : Z) : Z * option ErrKind :=
  match s with
  | EmptyString => (n, None)
  | String c s' =>
      let b := Z.of_N (N_of_ascii c) in
      if (48 <=? b) && (b <=? 57) then
        if maxUint64 / 10 + 1 <=? n then (maxUint64, Some ErrRange)
        else
          let n1 := n * 10 + (b - 48) in
          if maxUint64 <? n1 then (maxUint64, Some ErrRange)
          else parse_digits s' n1
      else (0, Some ErrSyntax)
  end.

Definition ParseUint (s : string) : Z * option ErrKind :=
  match s with
  | EmptyString => (0, Some ErrSyntax)
  | _ => parse_digits s 0
  end.

(** [ParseInt(s, 10, 0)]: an optional sign, then [ParseUint], then the
    range check against [int]. *)
Definition ParseInt (s : string) : Z * option ErrKind :=
  match s with
  | EmptyString => (0, Some ErrSyntax)
  | String c rest =>
      let neg := Ascii.eqb c "-" in
      let body := if Ascii.eqb c "+" || neg then rest else s in
      match ParseUint body with
      | (_, Some ErrSyntax) => (0, Some ErrSyntax)
      | (un, _) =>
          let cutoff := 2 ^ (IntSize - 1) in
          if negb neg && (cutoff <=? un) then (cutoff - 1, Some ErrRange)
          else if neg && (cutoff <? un) then (- cutoff, Some ErrRange)
          else (if neg then - un else un, None)
      end
  end.

(** [strconv.Atoi]: [ParseInt(s, 10, 0)] with the error renamed. *)
Definition Atoi (s : string) : Z * option NumError :=
  match ParseInt s with
  | (n, None) => (n, None)
  | (n, Some k) => (n, Some (mkNumError "Atoi"%string s k))
  end.

(** [strconv.Itoa]: the decimal numeral, with a minus sign when negative. *)
Definition Itoa (i : Z) : string := NilZero.string_of_int (Z.to_int i).

(** *** The numerals [Atoi] is documented to accept

    A second reading, from the documentation of [strconv] rather than from
    its loop: a decimal integer is an optional sign followed by one or
    more decimal digits.  [decimal_integer s] is its value, whatever its
    size. *)

Definition is_digit (c : ascii) : bool :=
  let b := Z.of_N (N_of_ascii c) in (48 <=? b) && (b <=? 57).

Fixpoint digits_value (s : string) (acc : Z) : option Z :=
  match s with
  | EmptyString => Some acc
  | String c s' =>
      if is_digit c then digits_value s' (acc * 10 + (Z.of_N (N_of_ascii c) - 48))
      else None
  end.

Definition decimal_integer (s : string) : option Z :=
  match s with
  | EmptyString => None
  | String c rest =>
      if Ascii.eqb c "-" then
        match rest with
        | EmptyString => None
        | _ => option_map Z.opp (digits_value rest 0)
        end
      else if Ascii.eqb c "+" then
        match rest with
        | EmptyString => None
        | _ => digits_value rest 0
        end
      else digits_value s 0
  end.

End strconv.

(** ** The data of go-control-plane's [cache/v2] that the package uses *)

(** A cell address of the store. *)
Definition loc := nat.

Section Cache.

(** The payload of a resource: a non-nil [types.Resource] (a protobuf
    message), opaque to the cache. *)
Variable Message : Type.

(** [types.Resource] is an interface: [None] is its nil value, which is
    also what indexing a Go map gives for a missing key. *)
Definition Resource : Type := option Message.

(** [xds_cache.Resources]: a version and the map of named items.  The map
    is a reference; [None] is the nil map. *)
Record Resources := mkResources { Version : string; Items : option loc }.

(** [types.ResponseType] is an [int]; the six constants index the array
    [Snapshot.Resources], of length [UnknownType]. *)
Definition ResponseType := Z.
Definition Endpoint : ResponseType := 0.
Definition Cluster : ResponseType := 1.
Definition Route : ResponseType := 2.
Definition Listener : ResponseType := 3.
Definition Secret : ResponseType := 4.
Definition Runtime : ResponseType := 5.
Definition UnknownType : nat := 6.

(** [xds_cache.Snapshot]: the struct's one field, [Resources [6]Resources]. *)
Definition Snapshot : Type := vec Resources UnknownType.

(** The store: the snapshot structs and item maps allocated so far (a
    cell's address is its position), and the contents of the [Cache] map
    itself, whose values are pointers ([None] is nil). *)
Record State := mkState {
  snapshots : list Snapshot;
  maps : list (gmap string Resource);
  cache : gmap string (option loc)
}.

Definition set_snapshots (f : list Snapshot → list Snapshot) (st : State) : State :=
  mkState (f (snapshots st)) (maps st) (cache st).
Definition set_maps (f : list (gmap string Resource) → list (gmap string Resource))
    (st : State) : State :=
  mkState (snapshots st) (f (maps st)) (cache st).
Definition set_cache (f : gmap string (option loc) → gmap string (option loc))
    (st : State) : State :=
  mkState (snapshots st) (maps st) (f (cache st)).

(** ** Outcomes *)

(** The run-time panics of the operations involved.  [InvalidAddress]
    stands for a reference to a cell that was never allocated, which no Go
    program can hold; it is there to keep the store total. *)
Inductive panic :=
  | NilDereference
  | IndexOutOfRange
  | AssignmentToNilMap
  | InvalidAddress.

Inductive outcome (A : Type) :=
  | Returned (a : A) (st : State)
  | Panicked (p : panic) (st : State).
Arguments Returned {A} a st.
Arguments Panicked {A} p st.

Definition M (A : Type) : Type := State → outcome A.

Definition ret {A} (a : A) : M A := λ st, Returned a st.
Definition throw {A} (p : panic) : M A := λ st, Panicked p st.
Definition bind {A B} (m : M A) (k : A → M B) : M B :=
  λ st, match m st with
        | Returned a st' => k a st'
        | Panicked p st' => Panicked p st'
        end.

Notation "x <- m ;; k" := (bind m (λ x, k))
  (at level 100, m at next level, right associativity).
Notation "m ;;; k" := (bind m (λ _, k))
  (at level 100, right associativity).

Definition final_state {A} (o : outcome A) : State :=
  match o with Returned _ st => st | Panicked _ st => st end.

(** ** Primitive steps *)

(** [cache[nodeID]]: the zero value, nil, for a missing key. *)
Definition cache_index (st : State) (nodeID : string) : option loc :=
  default None (cache st !! nodeID).

Definition index_cache (nodeID : string) : M (option loc) :=
  λ st, Returned (cache_index st nodeID) st.

(** The address behind a pointer that is about to be dereferenced. *)
Definition nonnil (p : option loc) : M loc :=
  match p with
  | None => throw NilDereference
  | Some l => ret l
  end.

Definition load (l : loc) : M Snapshot :=
  λ st, match snapshots st !! l with
        | Some s => Returned s st
        | None => Panicked InvalidAddress st
        end.

Definition store (l : loc) (s : Snapshot) : M unit :=
  λ st, Returned tt (set_snapshots (λ h, <[l := s]> h) st).

(** [&ncache]: the local struct moves to a new cell. *)
Definition new_snapshot (s : Snapshot) : M loc :=
  λ st, Returned (length (snapshots st)) (set_snapshots (λ h, h ++ [s]) st).

(** [a[i]] for an [int] index that is not a constant. *)
Definition index_array (i : Z) : M (fin UnknownType) :=
  match i with
  | 0 => ret 0%fin
  | 1 => ret 1%fin
  | 2 => ret 2%fin
  | 3 => ret 3%fin
  | 4 => ret 4%fin
  | 5 => ret 5%fin
  | _ => throw IndexOutOfRange
  end.

(** [make(map[string]types.Resource)] and the empty map literal. *)
Definition new_map : M (option loc) :=
  λ st, Returned (Some (length (maps st))) (set_maps (λ h, h ++ [∅]) st).

(** [m[name]]: nil for a missing key, and for every key of the nil map. *)
Definition map_get (m : option loc) (name : string) : M Resource :=
  λ st, match m with
        | None => Returned None st
        | Some l =>
            match maps st !! l with
            | Some items => Returned (default None (items !! name)) st
            | None => Panicked InvalidAddress st
            end
        end.

(** [m[name] = value]: a panic on the nil map. *)
Definition map_set (m : option loc) (name : string) (value : Resource) : M unit :=
  λ st, match m with
        | None => Panicked AssignmentToNilMap st
        | Some l =>
            match maps st !! l with
            | Some items =>
                Returned tt (set_maps (λ h, <[l := <[name := value]> items]> h) st)
            | None => Panicked InvalidAddress st
            end
        end.

(** [delete(m, name)]: nothing to do on the nil map. *)
Definition map_delete (m : option loc) (name : string) : M unit :=
  λ st, match m with
        | None => Returned tt st
        | Some l =>
            match maps st !! l with
            | Some items => Returned tt (set_maps (λ h, <[l := delete name items]> h) st)
            | None => Panicked InvalidAddress st
            end
        end.

(** [for i := from; i < from + n; i++ { body }]. *)
Fixpoint for_range (from : Z) (n : nat) (body : Z → M unit) : M unit :=
  match n with
  | O => ret tt
  | S n' => body from ;;; for_range (from + 1) n' body
  end.

(** ** The package *)

Definition startingVersion : Z := 1.

(** [xds_cache.NewResources(version, items)] for the empty slice [items]:
    [IndexResourcesByName] makes a new map and has nothing to insert. *)
Definition NewResources_empty (version : string) : M Resources :=
  m <- new_map ;; ret (mkResources version m).

(** The zero value of [xds_cache.Resources]. *)
Definition zero_Resources : Resources := mkResources ""%string None.

(** [NewCache]: the empty map, in a store with nothing allocated. *)
Definition NewCache : State := mkState [] [] ∅.

Definition NewNodeCache (nodeID : string) : M unit :=
  let version := strconv.Itoa startingVersion in
  let ncache : Snapshot := vreplicate UnknownType zero_Resources in
  r <- NewResources_empty version ;; let ncache := vinsert 3%fin r ncache in
  r <- NewResources_empty version ;; let ncache := vinsert 0%fin r ncache in
  r <- NewResources_empty version ;; let ncache := vinsert 1%fin r ncache in
  r <- NewResources_empty version ;; let ncache := vinsert 2%fin r ncache in
  r <- NewResources_empty version ;; let ncache := vinsert 4%fin r ncache in
  r <- NewResources_empty version ;; let ncache := vinsert 5%fin r ncache in
  l <- new_snapshot ncache ;;
  λ st, Returned tt (set_cache (λ c, <[nodeID := Some l]> c) st).

Definition DeleteNodeCache (nodeID : string) : M unit :=
  λ st, Returned tt (set_cache (λ c, delete nodeID c) st).

Definition GetNodeCache (nodeID : string) : M (option loc) :=
  index_cache nodeID.

Definition SetResource (nodeID name : string) (rtype : ResponseType)
    (value : Resource) : M unit :=
  p <- index_cache nodeID ;;
  l <- nonnil p ;;
  s <- load l ;;
  i <- index_array rtype ;;
  map_set (Items (s !!! i)) name value.

Definition GetResource (nodeID name : string) (rtype : ResponseType) : M Resource :=
  p <- index_cache nodeID ;;
  l <- nonnil p ;;
  s <- load l ;;
  i <- index_array rtype ;;
  map_get (Items (s !!! i)) name.

Definition DeleteResource (nodeID name : string) (rtype : ResponseType) : M unit :=
  p <- index_cache nodeID ;;
  l <- nonnil p ;;
  s <- load l ;;
  i <- index_array rtype ;;
  map_delete (Items (s !!! i)) name.

(** The new map is allocated once the element to assign to is known to
    exist; Go may allocate it before it panics, which only leaves garbage. *)
Definition ClearResources (nodeID : string) (rtype : ResponseType) : M unit :=
  p <- index_cache nodeID ;;
  l <- nonnil p ;;
  s <- load l ;;
  i <- index_array rtype ;;
  m <- new_map ;;
  store l (vinsert i (mkResources (Version (s !!! i)) m) s).

Definition GetCurrentVersion (nodeID : string) : M (Z * option strconv.NumError) :=
  p <- index_cache nodeID ;;
  l <- nonnil p ;;
  s <- load l ;;
  let '(version, err) := strconv.Atoi (Version (s !!! 0%fin)) in
  match err with
  | Some e => ret (0, Some e)
  | None => ret (version, None)
  end.

(** One turn of the loop: [cache[nodeID].Resources[i].Version = sversion]. *)
Definition set_version (nodeID : string) (sversion : string) (i : Z) : M unit :=
  p <- index_cache nodeID ;;
  l <- nonnil p ;;
  s <- load l ;;
  k <- index_array i ;;
  store l (vinsert k (mkResources sversion (Items (s !!! k))) s).

Definition BumpCacheVersion (nodeID : string) : M (Z * option strconv.NumError) :=
  p <- index_cache nodeID ;;
  l <- nonnil p ;;
  s <- load l ;;
  let '(version, err) := strconv.Atoi (Version (s !!! 0%fin)) in
  match err with
  | Some e => ret (0, Some e)
  | None =>
      let version := strconv.wrap_int (version + 1) in
      let sversion := strconv.Itoa version in
      for_range 0 6 (set_version nodeID sversion) ;;;
      ret (version, None)
  end.

(** *** Publishing *)

(** The distribution layer, [xds_cache.SnapshotCache], is an interface of
    go-control-plane: its state and its method [SetSnapshot], which takes
    the node and a snapshot by value and returns an [error] (nil, here
    [None], when the snapshot was accepted). *)
Variable SnapshotCache : Type.
Variable error : Type.
Variable xds_SetSnapshot :
  string → Snapshot → SnapshotCache → SnapshotCache * option error.

(** [SetSnapshot] has no result: the [error] of the layer is dropped.  The
    second component is the layer after the call. *)
Definition SetSnapshot (nodeID : string) (snapshotCache : SnapshotCache)
    : State → outcome unit * SnapshotCache :=
  λ st,
    match (p <- index_cache nodeID ;; l <- nonnil p ;; load l) st with
    | Returned s st' =>
        let '(snapshotCache', _) := xds_SetSnapshot nodeID s snapshotCache in
        (Returned tt st', snapshotCache')
    | Panicked p st' => (Panicked p st', snapshotCache)
    end.

(** ** Reading the store *)

(** The array index of a resource type, and the type of an index. *)
Definition ResponseType_of (i : fin UnknownType) : ResponseType :=
  Z.of_nat (fin_to_nat i).

(** The snapshot of a node: what [*cache[nodeID]] reads, if anything. *)
Definition node_snapshot (st : State) (nodeID : string) : option Snapshot :=
  match cache_index st nodeID with
  | Some l => snapshots st !! l
  | None => None
  end.

(** The items of a collection; the nil map reads as the empty one. *)
Definition items_of (st : State) (r : Resources) : option (gmap string Resource) :=
  match Items r with
  | Some l => maps st !! l
  | None => Some ∅
  end.

(** The snapshot [BumpCacheVersion] leaves behind: the new version in each
    collection, the item maps as they were. *)
Definition restamp (sversion : string) (s : Snapshot) : Snapshot :=
  vmap (λ r, mkResources sversion (Items r)) s.

(** The snapshot [NewNodeCache] builds when the first map it makes (the one
    of Listener) lands at address [b]: the maps of the six collections are
    made in the order Listener, Endpoint, Cluster, Route, Secret, Runtime. *)
Definition fresh_snapshot (b : loc) : Snapshot :=
  let version := strconv.Itoa startingVersion in
  [# mkResources version (Some (b + 1)%nat);
     mkResources version (Some (b + 2)%nat);
     mkResources version (Some (b + 3)%nat);
     mkResources version (Some b);
     mkResources version (Some (b + 4)%nat);
     mkResources version (Some (b + 5)%nat)].

(** A collection whose item map exists (it is not nil). *)
Definition allocated (st : State) (r : Resources) : Prop :=
  ∃ l items, Items r = Some l ∧ maps st !! l = Some items.

(** A fully initialized snapshot: each of the six collections has its map. *)
Definition initialized (st : State) (s : Snapshot) : Prop :=
  ∀ i : fin UnknownType, allocated st (s !!! i).

(** The invariant of the stores the package builds: every node of the cache
    points to an initialized snapshot, no two nodes point to the same one,
    and no two collections (of one node or of two) share their item map. *)
Definition cache_wf (st : State) : Prop :=
  (∀ n l, cache_index st n = Some l →
     ∃ s, snapshots st !! l = Some s ∧ initialized st s)
  ∧ (∀ n m l, n ≠ m → cache_index st n = Some l → cache_index st m ≠ Some l)
  ∧ (∀ n m s t (i j : fin UnknownType),
       n ≠ m ∨ i ≠ j →
       node_snapshot st n = Some s → node_snapshot st m = Some t →
       Items (s !!! i) ≠ Items (t !!! j)).

(** The cache entry of node [m] is the same in [st'] as in [st]: the same
    pointer, the same struct behind it, the same items in each collection. *)
Definition same_entry (st st' : State) (m : string) : Prop :=
  cache_index st' m = cache_index st m
  ∧ node_snapshot st' m = node_snapshot st m
  ∧ ∀ s i, node_snapshot st m = Some s →
      items_of st' (s !!! i) = items_of st (s !!! i).

(** What an operation addressed to [n] may touch between [st] and [st']: the
    entry of [n] in the cache map, the struct its pointer leads to, and the
    item maps of that struct.  Every other entry, every other struct and
    every other map allocated in [st] is in [st'] as it was. *)
Definition touches_only (st st' : State) (n : string) : Prop :=
  (∀ m, m ≠ n → cache_index st' m = cache_index st m)
  ∧ (∀ l s, snapshots st !! l = Some s → cache_index st n ≠ Some l →
       snapshots st' !! l = Some s)
  ∧ (∀ k items, maps st !! k = Some items →
       (∀ s (i : fin UnknownType),
          node_snapshot st n = Some s → Items (s !!! i) ≠ Some k) →
       maps st' !! k = Some items).

(** ** The operations as data *)

Inductive operation :=
  | OpNewNodeCache (nodeID : string)
  | OpDeleteNodeCache (nodeID : string)
  | OpGetNodeCache (nodeID : string)
  | OpSetResource (nodeID name : string) (rtype : ResponseType) (value : Resource)
  | OpGetResource (nodeID name : string) (rtype : ResponseType)
  | OpDeleteResource (nodeID name : string) (rtype : ResponseType)
  | OpClearResources (nodeID : string) (rtype : ResponseType)
  | OpSetSnapshot (nodeID : string) (snapshotCache : SnapshotCache)
  | OpGetCurrentVersion (nodeID : string)
  | OpBumpCacheVersion (nodeID : string).

(** The node an operation is addressed to. *)
Definition target (o : operation) : string :=
  match o with
  | OpNewNodeCache n | OpDeleteNodeCache n | OpGetNodeCache n
  | OpSetResource n _ _ _ | OpGetResource n _ _ | OpDeleteResource n _ _
  | OpClearResources n _ | OpSetSnapshot n _
  | OpGetCurrentVersion n | OpBumpCacheVersion n => n
  end.

(** The store an operation leaves behind, whether it returns or panics. *)
Definition run (o : operation) (st : State) : State :=
  match o with
  | OpNewNodeCache n => final_state (NewNodeCache n st)
  | OpDeleteNodeCache n => final_state (DeleteNodeCache n st)
  | OpGetNodeCache n => final_state (GetNodeCache n st)
  | OpSetResource n name rtype value => final_state (SetResource n name rtype value st)
  | OpGetResource n name rtype => final_state (GetResource n name rtype st)
  | OpDeleteResource n name rtype => final_state (DeleteResource n name rtype st)
  | OpClearResources n rtype => final_state (ClearResources n rtype st)
  | OpSetSnapshot n d => final_state (fst (SetSnapshot n d st))
  | OpGetCurrentVersion n => final_state (GetCurrentVersion n st)
  | OpBumpCacheVersion n => final_state (BumpCacheVersion n st)
  end.

(** The stores reachable from [NewCache] by the operations of the package. *)
Inductive reachable : State → Prop :=
  | reachable_new : reachable NewCache
  | reachable_run o st : reachable st → reachable (run o st).

End Cache.

Arguments mkState {Message}.
Arguments snapshots {Message}.
Arguments maps {Message}.
Arguments cache {Message}.
Arguments set_snapshots {Message}.
Arguments set_maps {Message}.
Arguments set_cache {Message}.
Arguments Returned {Message A}.
Arguments Panicked {Message A}.
Arguments ret {Message A}.
Arguments throw {Message A}.
Arguments bind {Message A B}.
Arguments final_state {Message A}.
Arguments cache_index {Message}.
Arguments index_cache {Message}.
Arguments nonnil {Message}.
Arguments load {Message}.
Arguments store {Message}.
Arguments new_snapshot {Message}.
Arguments index_array {Message}.
Arguments new_map {Message}.
Arguments map_get {Message}.
Arguments map_set {Message}.
Arguments map_delete {Message}.
Arguments for_range {Message}.
Arguments NewResources_empty {Message}.
Arguments NewCache {Message}.
Arguments NewNodeCache {Message}.
Arguments DeleteNodeCache {Message}.
Arguments GetNodeCache {Message}.
Arguments SetResource {Message}.
Arguments GetResource {Message}.
Arguments DeleteResource {Message}.
Arguments ClearResources {Message}.
Arguments GetCurrentVersion {Message}.
Arguments set_version {Message}.
Arguments BumpCacheVersion {Message}.
Arguments SetSnapshot {Message SnapshotCache error}.
Arguments node_snapshot {Message}.
Arguments items_of {Message}.
Arguments allocated {Message}.
Arguments initialized {Message}.
Arguments cache_wf {Message}.
Arguments same_entry {Message}.
Arguments touches_only {Message}.
Arguments OpNewNodeCache {Message SnapshotCache}.
Arguments OpDeleteNodeCache {Message SnapshotCache}.
Arguments OpGetNodeCache {Message SnapshotCache}.
Arguments OpSetResource {Message SnapshotCache}.
Arguments OpGetResource {Message SnapshotCache}.
Arguments OpDeleteResource {Message SnapshotCache}.
Arguments OpClearResources {Message SnapshotCache}.
Arguments OpSetSnapshot {Message SnapshotCache}.
Arguments OpGetCurrentVersion {Message SnapshotCache}.
Arguments OpBumpCacheVersion {Message SnapshotCache}.
Arguments target {Message SnapshotCache}.
Arguments run {Message SnapshotCache error}.
Arguments reachable {Message SnapshotCache error}.

(** ** The claims of the specification that the code does not meet

    Each is stated here as the specification words it, for one node of one
    store, to be compared with what the code does. *)

Section Specification.

Context {Message SnapshotCache error : Type}.
Variable xds_SetSnapshot :
  string → Snapshot → SnapshotCache → SnapshotCache * option error.

(** "A valid positive integer": decimal digits only, with a value of at
    least 1. *)
Definition valid_positive_integer (version : string) : bool :=
  match version with
  | EmptyString => false
  | _ =>
      match strconv.digits_value version 0 with
      | Some v => 0 <? v
      | None => false
      end
  end.

(** "BumpVersion returns the previous integer version plus exactly 1." *)
Definition bump_adds_one (st : State Message) (nodeID : string) : Prop :=
  ∀ v, GetCurrentVersion nodeID st = Returned (v, None) st →
    ∃ st', BumpCacheVersion nodeID st = Returned (v + 1, None) st'.

(** "For every nodeID that has no snapshot in the cache, CurrentVersion and
    BumpVersion fail with an UnknownNode error (rather than succeeding,
    panicking, or failing some other way)": both return an error. *)
Definition absent_node_is_an_error (st : State Message) (nodeID : string) : Prop :=
  cache_index st nodeID = None →
  (∃ v e st', GetCurrentVersion nodeID st = Returned (v, Some e) st')
  ∧ (∃ v e st', BumpCacheVersion nodeID st = Returned (v, Some e) st').

(** "CurrentVersion fails if and only if the stored version is not a valid
    positive integer." *)
Definition version_fails_iff_not_positive (st : State Message) (nodeID : string)
    : Prop :=
  ∀ s, node_snapshot st nodeID = Some s →
    (∃ v e, GetCurrentVersion nodeID st = Returned (v, Some e) st)
    ↔ valid_positive_integer (Version (s !!! 0%fin)) = false.

(** "Any failure of the distribution layer to accept the snapshot is
    returned to the caller": when the layer refuses, Publish does not return
    as if nothing had happened. *)
Definition publish_surfaces_failure (st : State Message) (nodeID : string)
    (snapshotCache : SnapshotCache) : Prop :=
  ∀ s e, node_snapshot st nodeID = Some s →
    snd (xds_SetSnapshot nodeID s snapshotCache) = Some e →
    ∀ st', fst (SetSnapshot xds_SetSnapshot nodeID snapshotCache st) ≠ Returned tt st'.

(** "BumpVersion resynchronizes all six collections to the Endpoint
    collection's version plus 1." *)
Definition bump_resyncs_to_Endpoint_plus_one (st : State Message) (nodeID : string)
    : Prop :=
  ∀ s v, node_snapshot st nodeID = Some s →
    strconv.Atoi (Version (s !!! 0%fin)) = (v, None) →
    ∃ st' s', BumpCacheVersion nodeID st = Returned (v + 1, None) st'
      ∧ node_snapshot st' nodeID = Some s'
      ∧ ∀ i : fin UnknownType, Version (s' !!! i) = strconv.Itoa (v + 1).

End Specification.

(** ** Example stores *)

Module Examples.

(** A cache holding the single node ["n1"], as [NewNodeCache] leaves it. *)
Definition one_node : State string :=
  final_state (NewNodeCache "n1" NewCache).

(** A cache with the two nodes ["n1"] and ["n2"]. *)
Definition two_nodes : State string :=
  final_state (NewNodeCache "n2" one_node).

(** A snapshot whose six collections carry the given versions and the item
    maps at addresses 0 to 5. *)
Definition versions (v0 v1 v2 v3 v4 v5 : string) : Snapshot :=
  [# mkResources v0 (Some 0%nat); mkResources v1 (Some 1%nat);
     mkResources v2 (Some 2%nat); mkResources v3 (Some 3%nat);
     mkResources v4 (Some 4%nat); mkResources v5 (Some 5%nat)].

(** A cache with the node ["n1"] whose collections carry the given versions
    and no items: a store whose versions were written from outside. *)
Definition with_versions (v0 v1 v2 v3 v4 v5 : string) : State string :=
  mkState [versions v0 v1 v2 v3 v4 v5] (replicate 6 ∅) {[ "n1"%string := Some 0%nat ]}.

(** The cache with the node ["n1"] after three writes: the clusters ["c1"]
    and ["c2"] and the listener ["l1"]. *)
Definition with_resources : State string :=
  final_state (SetResource "n1" "l1" Listener (Some "L1"%string)
    (final_state (SetResource "n1" "c2" Cluster (Some "V2"%string)
      (final_state (SetResource "n1" "c1" Cluster (Some "V1"%string) one_node))))).

(** A distribution layer that records what it is given and accepts it, and
    one that refuses everything. *)
Definition accepting (nodeID : string) (s : Snapshot)
    (d : list (string * Snapshot)) : list (string * Snapshot) * option string :=
  ((nodeID, s) :: d, None).
Definition rejecting (nodeID : string) (s : Snapshot)
    (d : list (string * Snapshot)) : list (string * Snapshot) * option string :=
  (d, Some "snapshot rejected"%string).

End Examples.

(** * Properties *)

(** ** [strconv.Atoi] *)

Section Atoi.

Import strconv.

Lemma digits_value_ge s : ∀ n m, 0 ≤ n → digits_value s n = Some m → n ≤ m.
Proof.
  induction s as [|c s IH]; simpl; intros n m Hn H.
  - injection H as <-. lia.
  - unfold is_digit in H.
    destruct ((48 <=? Z.of_N (N_of_ascii c)) && (Z.of_N (N_of_ascii c) <=? 57))
      eqn:Hd; [|discriminate].
    apply andb_prop in Hd as [H1%Z.leb_le H2%Z.leb_le].
    apply IH in H; lia.
Qed.

(** The loop of [ParseUint] against the value of the digits. *)
Lemma parse_digits_spec s : ∀ n, 0 ≤ n ≤ maxUint64 →
  match parse_digits s n with
  | (m, None) => digits_value s n = Some m ∧ 0 ≤ m ≤ maxUint64
  | (_, Some ErrSyntax) => digits_value s n = None
  | (m, Some ErrRange) =>
      m = maxUint64 ∧ ∀ m', digits_value s n = Some m' → maxUint64 < m'
  end.
Proof.
  induction s as [|c s IH]; simpl; intros n Hn; [done|].
  unfold is_digit.
  destruct ((48 <=? Z.of_N (N_of_ascii c)) && (Z.of_N (N_of_ascii c) <=? 57))
    eqn:Hd; [|done].
  apply andb_prop in Hd as [H1%Z.leb_le H2%Z.leb_le].
  set (d := Z.of_N (N_of_ascii c) - 48) in *.
  assert (Hmax : maxUint64 = 18446744073709551615) by reflexivity.
  destruct (maxUint64 / 10 + 1 <=? n) eqn:Hcut.
  { apply Z.leb_le in Hcut. split; [done|]. intros m' Hm'.
    apply digits_value_ge in Hm'; [|lia].
    rewrite Hmax in *. change (18446744073709551615 / 10 + 1)
      with 1844674407370955162 in Hcut. lia. }
  destruct (maxUint64 <? n * 10 + d) eqn:Hov.
  { apply Z.ltb_lt in Hov. split; [done|]. intros m' Hm'.
    apply digits_value_ge in Hm'; lia. }
  apply Z.ltb_ge in Hov. apply (IH (n * 10 + d)). lia.
Qed.

(** [ParseUint] against the value of the digits. *)
Lemma ParseUint_spec body :
  match ParseUint body with
  | (m, None) => body ≠ EmptyString ∧ digits_value body 0 = Some m ∧ 0 ≤ m ≤ maxUint64
  | (_, Some ErrSyntax) => body = EmptyString ∨ digits_value body 0 = None
  | (m, Some ErrRange) =>
      m = maxUint64 ∧ ∀ m', digits_value body 0 = Some m' → maxUint64 < m'
  end.
Proof.
  assert (Hmax : maxUint64 = 18446744073709551615) by reflexivity.
  unfold ParseUint. destruct body as [|c rest]; [by left|].
  pose proof (parse_digits_spec (String c rest) 0 ltac:(lia)) as H.
  destruct (parse_digits (String c rest) 0) as [un [[]|]]; [by right | done | done].
Qed.

Lemma Atoi_spec s v :
  Atoi s = (v, None) ↔ decimal_integer s = Some v ∧ minInt ≤ v ≤ maxInt.
Proof.
  assert (Hmax : maxUint64 = 18446744073709551615) by reflexivity.
  assert (Hcut : 2 ^ (IntSize - 1) = 9223372036854775808) by reflexivity.
  assert (Hhi : maxInt = 9223372036854775807) by reflexivity.
  assert (Hlo : minInt = -9223372036854775808) by reflexivity.
  unfold Atoi, ParseInt, decimal_integer.
  destruct s as [|c rest]; [split; [discriminate | intros [[=] _]]|].
  rewrite Hcut.
  destruct (Ascii.eqb c "-") eqn:Hneg.
  - apply Ascii.eqb_eq in Hneg as ->. cbn [Ascii.eqb Bool.eqb orb negb andb].
    pose proof (ParseUint_spec rest) as H.
    destruct (ParseUint rest) as [un [[]|]].
    + split; [discriminate|]. intros [Hv _].
      destruct H as [-> | H]; [discriminate|]. destruct rest; [discriminate|].
      rewrite H in Hv. discriminate.
    + destruct H as [-> H]. rewrite Hmax. simpl. split; [discriminate|].
      intros [Hv Hr]. destruct rest; [discriminate|].
      destruct (digits_value _ 0) as [m|] eqn:Hm; [|discriminate].
      injection Hv as <-. specialize (H m eq_refl). lia.
    + destruct H as (Hne & H & Hr). destruct rest; [done|]. rewrite H. simpl.
      destruct (9223372036854775808 <? un) eqn:Hlt.
      * apply Z.ltb_lt in Hlt. split; [discriminate | intros [[= <-] ?]; lia].
      * apply Z.ltb_ge in Hlt. split; [intros [= <-] | intros [[= <-] ?]]; [split|]; [done|lia|done].
  - assert (Hbody : ∀ num body,
      (match
         match ParseUint body with
         | (_, Some ErrSyntax) => (0, Some ErrSyntax)
         | (un, _) =>
             if true && (9223372036854775808 <=? un)
             then (9223372036854775808 - 1, Some ErrRange)
             else (un, None)
         end
       with
       | (n, Some k) => (n, Some {| Func := "Atoi"; Num := num; Err := k |})
       | (n, None) => (n, None)
       end = (v, None))
      ↔ (body ≠ EmptyString ∧ digits_value body 0 = Some v) ∧ minInt ≤ v ≤ maxInt).
    { intros num body. pose proof (ParseUint_spec body) as H.
      destruct (ParseUint body) as [un [[]|]].
      + split; [discriminate|]. intros [[Hne Hv] _]. destruct H; congruence.
      + destruct H as [-> H]. rewrite Hmax. simpl. split; [discriminate|].
        intros [[_ Hv] Hr]. specialize (H v Hv). lia.
      + destruct H as (Hne & H & Hr). rewrite H. simpl.
        destruct (9223372036854775808 <=? un) eqn:Hle.
        * apply Z.leb_le in Hle. split; [discriminate | intros [[_ [= <-]] ?]; lia].
        * apply Z.leb_gt in Hle. split; [intros [= <-] | intros [[_ [= <-]] ?]]; [split|]; [done|lia|done]. }
    cbn [negb orb].
    destruct (Ascii.eqb c "+") eqn:Hplus; cbn [orb].
    + rewrite Hbody. destruct rest as [|c' rest'].
      * split; [intros [[[] _] _]; done | intros [[=] _]].
      * split; [intros [[_ ?] ?]; done | intros [? ?]; done].
    + rewrite Hbody. split; [intros [[_ ?] ?]; done | intros [? ?]; done].
Qed.

(** What [Atoi] returns is an [int]. *)
Lemma Atoi_range s v : Atoi s = (v, None) → minInt ≤ v ≤ maxInt.
Proof. intros H. by apply Atoi_spec in H as [_ H]. Qed.

(** Incrementing an [int] below the largest one does not wrap around; at the
    largest one it gives the smallest. *)
Lemma wrap_int_succ v :
  minInt ≤ v ≤ maxInt →
  wrap_int (v + 1) = if v =? maxInt then minInt else v + 1.
Proof.
  assert (Hhi : maxInt = 9223372036854775807) by reflexivity.
  assert (Hlo : minInt = -9223372036854775808) by reflexivity.
  intros Hv. unfold wrap_int.
  change (2 ^ (IntSize - 1)) with 9223372036854775808.
  change (2 ^ IntSize) with 18446744073709551616.
  destruct (v =? maxInt) eqn:E.
  - apply Z.eqb_eq in E as ->. reflexivity.
  - apply Z.eqb_neq in E. rewrite Z.mod_small; lia.
Qed.


(** ** [strconv.Itoa] read back by [strconv.Atoi] *)

(** The digits [Itoa] writes, read back with an accumulator. *)
Lemma digits_value_of_uint_acc d : ∀ acc : positive,
  digits_value (NilEmpty.string_of_uint d) (Z.pos acc)
  = Some (Z.pos (Pos.of_uint_acc d acc)).
Proof.
  induction d as [|d IH|d IH|d IH|d IH|d IH|d IH|d IH|d IH|d IH|d IH];
    intros acc; [reflexivity|..];
    cbn [NilEmpty.string_of_uint digits_value Pos.of_uint_acc];
    (replace (is_digit _) with true by reflexivity);
    rewrite <- IH; f_equal; cbn [N_of_ascii N_of_digits]; lia.
Qed.

Lemma digits_value_of_uint d :
  digits_value (NilEmpty.string_of_uint d) 0 = Some (Z.of_N (Pos.of_uint d)).
Proof.
  induction d as [|d IH|d IH|d IH|d IH|d IH|d IH|d IH|d IH|d IH|d IH];
    [reflexivity | exact IH | ..];
    cbn [NilEmpty.string_of_uint digits_value Pos.of_uint];
    (replace (is_digit _) with true by reflexivity);
    exact (digits_value_of_uint_acc d _).
Qed.

(** The numeral of a positive number: not empty, no sign, the right value. *)
Lemma digits_value_to_uint p :
  Pos.to_uint p ≠ Decimal.Nil
  ∧ NilEmpty.string_of_uint (Pos.to_uint p) ≠ EmptyString
  ∧ (∀ c rest, NilEmpty.string_of_uint (Pos.to_uint p) = String c rest →
       Ascii.eqb c "-" = false ∧ Ascii.eqb c "+" = false)
  ∧ digits_value (NilEmpty.string_of_uint (Pos.to_uint p)) 0 = Some (Z.pos p).
Proof.
  pose proof (DecimalPos.Unsigned.to_uint_nonnil p) as Hnil.
  pose proof (digits_value_of_uint (Pos.to_uint p)) as Hv.
  rewrite DecimalPos.Unsigned.of_to in Hv.
  split; [done|]. split; [|split; [|exact Hv]].
  - by destruct (Pos.to_uint p).
  - intros c rest. destruct (Pos.to_uint p); [done|..]; intros [= <- _]; done.
Qed.

(** What [Itoa] writes is a decimal integer, with the value it was given. *)
Lemma decimal_integer_Itoa z : decimal_integer (Itoa z) = Some z.
Proof.
  unfold Itoa. destruct z as [|p|p]; [reflexivity|..];
    destruct (digits_value_to_uint p) as (Hnil & Hne & Hc & Hv);
    cbn [Z.to_int NilZero.string_of_int]; unfold NilZero.string_of_uint.
  - destruct (Pos.to_uint p) eqn:E; [done|..]; rewrite <- E in *;
      unfold decimal_integer;
      destruct (NilEmpty.string_of_uint (Pos.to_uint p)) as [|c rest] eqn:Es;
      try done; destruct (Hc c rest eq_refl) as [-> ->]; exact Hv.
  - unfold decimal_integer. cbn [Ascii.eqb Bool.eqb andb].
    destruct (Pos.to_uint p) eqn:E; [done|..]; rewrite <- E in *;
      destruct (NilEmpty.string_of_uint (Pos.to_uint p)) as [|c rest] eqn:Es;
      try done; by rewrite Hv.
Qed.

Lemma Atoi_Itoa_ok z : minInt ≤ z ≤ maxInt → Atoi (Itoa z) = (z, None).
Proof. intros Hz. apply Atoi_spec. split; [apply decimal_integer_Itoa | done]. Qed.

(** What [wrap_int] gives is an [int]. *)
Lemma wrap_int_range z : minInt ≤ wrap_int z ≤ maxInt.
Proof.
  unfold wrap_int, minInt, maxInt.
  change (2 ^ (IntSize - 1)) with 9223372036854775808.
  change (2 ^ IntSize) with 18446744073709551616.
  pose proof (Z.mod_pos_bound (z + 9223372036854775808) 18446744073709551616).
  lia.
Qed.

(** X1.  The version strings the package writes are read back as they were
    meant: for every [int], [Atoi] of what [Itoa] wrote returns that [int]
    and no error, the string being a plain decimal numeral of it. *)
Theorem Itoa_then_Atoi z :
  minInt ≤ z ≤ maxInt →
  Atoi (Itoa z) = (z, None) ∧ decimal_integer (Itoa z) = Some z.
Proof.
  intros Hz. split; [by apply Atoi_Itoa_ok | apply decimal_integer_Itoa].
Qed.


End Atoi.

(** ** The cache *)

Section Properties.

Context {Message : Type}.
Implicit Types (st : State Message) (s : Snapshot) (l : loc) (nodeID name : string).

(** The six collections of a snapshot, by name. *)
Ltac snapshot_cases s :=
  unfold Snapshot, UnknownType in s; inv_vec s; intros ? ? ? ? ? ?.

(** The six indices of the array of collections. *)
Ltac index_cases i :=
  unfold UnknownType in i;
  repeat (inv_fin i; [ | intros i]); [ .. | inv_fin i].

(** ** Running the primitive steps *)

Lemma index_array_of (i : fin UnknownType) st :
  index_array (ResponseType_of i) st = Returned i st.
Proof. index_cases i; reflexivity. Qed.

Lemma index_array_panics rtype st :
  ¬ (0 ≤ rtype < 6) → index_array rtype st = Panicked IndexOutOfRange st.
Proof.
  intros H. destruct rtype as [|p|p]; [lia | | reflexivity].
  do 3 (destruct p as [p|p|]; try reflexivity; try lia).
Qed.

Lemma node_snapshot_Some st nodeID s :
  node_snapshot st nodeID = Some s ↔
  ∃ l, cache_index st nodeID = Some l ∧ snapshots st !! l = Some s.
Proof.
  unfold node_snapshot. destruct (cache_index st nodeID) as [l|]; split.
  - intros H. eauto.
  - intros (l' & [= <-] & H). exact H.
  - discriminate.
  - intros (l' & [=] & _).
Qed.

(** Reading through the pointer of a node that has a snapshot. *)
Lemma deref_node {A} st nodeID l s (k : loc → Snapshot → M Message A) :
  cache_index st nodeID = Some l → snapshots st !! l = Some s →
  bind (index_cache nodeID) (λ p, bind (nonnil p) (λ l', bind (load l') (k l'))) st
  = k l s st.
Proof.
  intros Hc Hs. unfold bind, index_cache. rewrite Hc. simpl.
  unfold load. rewrite Hs. reflexivity.
Qed.

(** Reading through the nil pointer of a node that has none. *)
Lemma deref_nil {A} st nodeID (k : loc → M Message A) :
  cache_index st nodeID = None →
  bind (index_cache nodeID) (λ p, bind (nonnil p) k) st
  = Panicked NilDereference st.
Proof.
  intros Hc. unfold bind, index_cache. rewrite Hc. reflexivity.
Qed.

(** ** The version of a node *)

Lemma GetCurrentVersion_eq st nodeID l s :
  cache_index st nodeID = Some l → snapshots st !! l = Some s →
  GetCurrentVersion nodeID st =
  Returned (match strconv.Atoi (Version (s !!! 0%fin)) with
            | (_, Some e) => (0, Some e)
            | (version, None) => (version, None)
            end) st.
Proof.
  intros Hc Hs. unfold GetCurrentVersion.
  rewrite (deref_node st nodeID l s (λ _ s, _) Hc Hs).
  destruct (strconv.Atoi _) as [v [e|]]; reflexivity.
Qed.


(** The store after the assignment [*l = s]. *)
Local Abbreviation assign l s st := (set_snapshots (λ h, <[l := s]> h) st).

Lemma assign_lookup st l s s0 :
  snapshots st !! l = Some s0 → snapshots (assign l s st) !! l = Some s.
Proof.
  intros H. simpl. apply list_lookup_insert_eq. eapply lookup_lt_Some, H.
Qed.

Lemma assign_assign st l s1 s2 :
  assign l s2 (assign l s1 st) = assign l s2 st.
Proof. unfold set_snapshots. simpl. by rewrite list_insert_insert_eq. Qed.

Lemma bind_Returned {A B} (m : M Message A) (k : A → M Message B) st a st' :
  m st = Returned a st' → bind m k st = k a st'.
Proof. intros H. unfold bind. by rewrite H. Qed.

(** One turn of the loop of [BumpCacheVersion]. *)
Lemma set_version_eq st nodeID sversion i k l s :
  (∀ st', index_array (Message:=Message) i st' = Returned k st') →
  cache_index st nodeID = Some l → snapshots st !! l = Some s →
  set_version nodeID sversion i st =
  Returned tt (assign l (vinsert k (mkResources sversion (Items (s !!! k))) s) st).
Proof.
  intros Hi Hc Hs. unfold set_version.
  rewrite (deref_node st nodeID l s (λ l s, _) Hc Hs).
  unfold bind. rewrite Hi. reflexivity.
Qed.

Lemma restamp_lookup sversion s (i : fin UnknownType) :
  restamp sversion s !!! i = mkResources sversion (Items (s !!! i)).
Proof. snapshot_cases s. index_cases i; reflexivity. Qed.

(** The loop of [BumpCacheVersion] writes the version six times. *)
Lemma bump_loop st nodeID sversion l s :
  cache_index st nodeID = Some l → snapshots st !! l = Some s →
  for_range 0 6 (set_version nodeID sversion) st =
  Returned tt (assign l (restamp sversion s) st).
Proof.
  intros Hc Hs. cbn [for_range].
  do 6 (erewrite bind_Returned;
    [ | eapply (set_version_eq _ _ _ _ _ l); [ intros; reflexivity | exact Hc | ];
        first [ exact Hs | eapply assign_lookup; exact Hs ] ];
    rewrite ?assign_assign).
  unfold ret. do 2 f_equal. snapshot_cases s. reflexivity.
Qed.

Lemma BumpCacheVersion_eq st nodeID l s v :
  cache_index st nodeID = Some l → snapshots st !! l = Some s →
  strconv.Atoi (Version (s !!! 0%fin)) = (v, None) →
  BumpCacheVersion nodeID st =
  Returned (strconv.wrap_int (v + 1), None)
    (assign l (restamp (strconv.Itoa (strconv.wrap_int (v + 1))) s) st).
Proof.
  intros Hc Hs Hv. unfold BumpCacheVersion.
  rewrite (deref_node st nodeID l s (λ _ s, _) Hc Hs). rewrite Hv.
  erewrite bind_Returned by (eapply bump_loop; eassumption).
  reflexivity.
Qed.

Lemma BumpCacheVersion_err st nodeID l s v e :
  cache_index st nodeID = Some l → snapshots st !! l = Some s →
  strconv.Atoi (Version (s !!! 0%fin)) = (v, Some e) →
  BumpCacheVersion nodeID st = Returned (0, Some e) st.
Proof.
  intros Hc Hs Hv. unfold BumpCacheVersion.
  rewrite (deref_node st nodeID l s (λ _ s, _) Hc Hs). rewrite Hv. reflexivity.
Qed.


Lemma assign_node_snapshot st nodeID l s s0 :
  cache_index st nodeID = Some l → snapshots st !! l = Some s0 →
  node_snapshot (assign l s st) nodeID = Some s.
Proof.
  intros Hc Hs. apply node_snapshot_Some. exists l. split; [exact Hc|].
  eapply assign_lookup, Hs.
Qed.

(** [Items] and [items_of] after a version bump. *)
Lemma restamp_items sversion st st' s (i : fin UnknownType) :
  maps st' = maps st →
  items_of st' (restamp sversion s !!! i) = items_of st (s !!! i).
Proof. intros H. unfold items_of. rewrite restamp_lookup, H. reflexivity. Qed.

(** C1 (as amended).  For every node present in the cache whose version
    reads as the integer [v], [BumpCacheVersion] returns [v + 1], computed
    in Go's [int]: exactly [v + 1] below the largest [int], the smallest
    [int] at the largest.  Afterwards the six collections of the node carry
    that number in decimal, and the items of every collection are as
    before. *)
Theorem BumpCacheVersion_increments st nodeID s v :
  node_snapshot st nodeID = Some s →
  GetCurrentVersion nodeID st = Returned (v, None) st →
  ∃ st' s',
    BumpCacheVersion nodeID st =
      Returned (if v =? strconv.maxInt then strconv.minInt else v + 1, None) st'
    ∧ node_snapshot st' nodeID = Some s'
    ∧ ∀ i : fin UnknownType,
        Version (s' !!! i) =
          strconv.Itoa (if v =? strconv.maxInt then strconv.minInt else v + 1)
        ∧ Items (s' !!! i) = Items (s !!! i)
        ∧ items_of st' (s' !!! i) = items_of st (s !!! i).
Proof.
  intros (l & Hc & Hs)%node_snapshot_Some Hv.
  rewrite (GetCurrentVersion_eq st nodeID l s Hc Hs) in Hv.
  destruct (strconv.Atoi (Version (s !!! 0%fin))) as [v' [e|]] eqn:Ha;
    [discriminate|].
  injection Hv as ->.
  rewrite <- (wrap_int_succ v) by (eapply Atoi_range, Ha).
  eexists _, _. split; [apply (BumpCacheVersion_eq st nodeID l s v Hc Hs Ha)|].
  split; [eapply assign_node_snapshot; eassumption|].
  intros i. rewrite restamp_lookup. simpl. split; [done|]. split; [done|].
  by rewrite <- (restamp_lookup (strconv.Itoa (strconv.wrap_int (v + 1)))),
    (restamp_items _ st).
Qed.

(** C5.  For every node present in the cache whose stored version
    [strconv.Atoi] does not parse, [BumpCacheVersion] returns the parse
    error and leaves the whole store, hence every item map and every
    version of the snapshot, as it was. *)
Theorem BumpCacheVersion_corrupt_version st nodeID s v e :
  node_snapshot st nodeID = Some s →
  strconv.Atoi (Version (s !!! 0%fin)) = (v, Some e) →
  BumpCacheVersion nodeID st = Returned (0, Some e) st.
Proof.
  intros (l & Hc & Hs)%node_snapshot_Some Ha.
  exact (BumpCacheVersion_err st nodeID l s v e Hc Hs Ha).
Qed.

(** C6 (as amended).  For every node present in the cache,
    [GetCurrentVersion] returns without touching the store, and it returns
    an error if and only if the version of the Endpoint collection is not a
    decimal integer (an optional sign, then digits) that fits Go's [int];
    when it is one, that integer is returned, be it positive, zero or
    negative. *)
Theorem GetCurrentVersion_fails_iff st nodeID s :
  node_snapshot st nodeID = Some s →
  (∃ r, GetCurrentVersion nodeID st = Returned r st)
  ∧ (∀ v, GetCurrentVersion nodeID st = Returned (v, None) st
          ↔ strconv.decimal_integer (Version (s !!! 0%fin)) = Some v
            ∧ strconv.minInt ≤ v ≤ strconv.maxInt)
  ∧ ((∃ v e, GetCurrentVersion nodeID st = Returned (v, Some e) st)
     ↔ ¬ ∃ v, strconv.decimal_integer (Version (s !!! 0%fin)) = Some v
              ∧ strconv.minInt ≤ v ≤ strconv.maxInt).
Proof.
  intros (l & Hc & Hs)%node_snapshot_Some.
  rewrite (GetCurrentVersion_eq st nodeID l s Hc Hs).
  destruct (strconv.Atoi (Version (s !!! 0%fin))) as [v' [e|]] eqn:Ha.
  - assert (Hno : ∀ v, ¬ (strconv.decimal_integer (Version (s !!! 0%fin)) = Some v
                        ∧ strconv.minInt ≤ v ≤ strconv.maxInt)).
    { intros v Hv%Atoi_spec. congruence. }
    split; [eauto|]. split.
    + intros v. split; [discriminate | intros H; destruct (Hno v H)].
    + split; [intros _ [v H]; destruct (Hno v H) | eauto].
  - pose proof (proj1 (Atoi_spec _ _) Ha) as Hok.
    split; [eauto|]. split.
    + intros v. split; [intros [= <-]; exact Hok|].
      intros Hv%Atoi_spec. congruence.
    + split; [intros (v & e & [=]) | intros []; eauto].
Qed.

(** C10 (as amended).  For every node present in the cache,
    [GetCurrentVersion] and [BumpCacheVersion] read the version of the
    collection at index 0 (Endpoint) and no other: whatever the other five
    say, the first returns what [strconv.Atoi] makes of it, and when that is
    an integer [v] the second writes into all six collections the decimal
    of [v + 1] computed in Go's [int] ([v + 1] below the largest [int], the
    smallest [int] at the largest). *)
Theorem version_read_from_Endpoint st nodeID s :
  node_snapshot st nodeID = Some s →
  GetCurrentVersion nodeID st =
    Returned (match strconv.Atoi (Version (s !!! 0%fin)) with
              | (_, Some e) => (0, Some e)
              | (v, None) => (v, None)
              end) st
  ∧ ∀ v, strconv.Atoi (Version (s !!! 0%fin)) = (v, None) →
      ∃ st' s',
        BumpCacheVersion nodeID st =
          Returned (if v =? strconv.maxInt then strconv.minInt else v + 1, None) st'
        ∧ node_snapshot st' nodeID = Some s'
        ∧ ∀ i : fin UnknownType,
            Version (s' !!! i) =
              strconv.Itoa (if v =? strconv.maxInt then strconv.minInt else v + 1).
Proof.
  intros (l & Hc & Hs)%node_snapshot_Some.
  split; [exact (GetCurrentVersion_eq st nodeID l s Hc Hs)|].
  intros v Ha. rewrite <- (wrap_int_succ v) by (eapply Atoi_range, Ha).
  eexists _, _. split; [apply (BumpCacheVersion_eq st nodeID l s v Hc Hs Ha)|].
  split; [eapply assign_node_snapshot; eassumption|].
  intros i. by rewrite restamp_lookup.
Qed.


(** ** Creating and deleting nodes *)

Lemma NewNodeCache_eq st nodeID :
  NewNodeCache nodeID st =
  Returned tt
    (mkState (snapshots st ++ [fresh_snapshot (length (maps st))])
             (maps st ++ replicate 6 ∅)
             (<[nodeID := Some (length (snapshots st))]> (cache st))).
Proof.
  unfold NewNodeCache, NewResources_empty, bind, new_map, new_snapshot, ret,
    set_maps, set_snapshots, set_cache. simpl.
  rewrite !length_app. simpl. rewrite <- !app_assoc. simpl.
  rewrite <- !Nat.add_assoc. reflexivity.
Qed.


Lemma NewNodeCache_snapshot st nodeID :
  node_snapshot (final_state (NewNodeCache nodeID st)) nodeID
  = Some (fresh_snapshot (length (maps st))).
Proof.
  rewrite NewNodeCache_eq. apply node_snapshot_Some.
  exists (length (snapshots st)). unfold cache_index. simpl. split.
  - by rewrite lookup_insert_eq.
  - by apply list_lookup_middle.
Qed.

Lemma fresh_snapshot_items (h : list (gmap string (Resource Message))) (i : fin UnknownType) :
  ∃ m, Items (fresh_snapshot (length h) !!! i) = Some m
       ∧ (h ++ replicate 6 ∅) !! m = Some ∅.
Proof.
  index_cases i; (eexists; split; [reflexivity|]);
    rewrite lookup_app_r by lia;
    match goal with
    | |- _ !! (?b + ?k - ?b)%nat = _ => replace (b + k - b)%nat with k by lia
    | |- _ !! (?b - ?b)%nat = _ => rewrite Nat.sub_diag
    end; reflexivity.
Qed.

(** ** Reading and writing resources *)

Lemma GetResource_eq st nodeID name s (i : fin UnknownType) m items :
  node_snapshot st nodeID = Some s →
  Items (s !!! i) = Some m → maps st !! m = Some items →
  GetResource nodeID name (ResponseType_of i) st
  = Returned (default None (items !! name)) st.
Proof.
  intros (l & Hc & Hs)%node_snapshot_Some Hi Hm. unfold GetResource.
  rewrite (deref_node st nodeID l s (λ _ s, _) Hc Hs).
  rewrite (bind_Returned _ _ _ _ _ (index_array_of i st)).
  unfold map_get. by rewrite Hi, Hm.
Qed.

Lemma SetResource_eq st nodeID name value s (i : fin UnknownType) m items :
  node_snapshot st nodeID = Some s →
  Items (s !!! i) = Some m → maps st !! m = Some items →
  SetResource nodeID name (ResponseType_of i) value st
  = Returned tt (set_maps (λ h, <[m := <[name := value]> items]> h) st).
Proof.
  intros (l & Hc & Hs)%node_snapshot_Some Hi Hm. unfold SetResource.
  rewrite (deref_node st nodeID l s (λ _ s, _) Hc Hs).
  rewrite (bind_Returned _ _ _ _ _ (index_array_of i st)).
  unfold map_set. by rewrite Hi, Hm.
Qed.

Lemma DeleteResource_eq st nodeID name s (i : fin UnknownType) m items :
  node_snapshot st nodeID = Some s →
  Items (s !!! i) = Some m → maps st !! m = Some items →
  DeleteResource nodeID name (ResponseType_of i) st
  = Returned tt (set_maps (λ h, <[m := delete name items]> h) st).
Proof.
  intros (l & Hc & Hs)%node_snapshot_Some Hi Hm. unfold DeleteResource.
  rewrite (deref_node st nodeID l s (λ _ s, _) Hc Hs).
  rewrite (bind_Returned _ _ _ _ _ (index_array_of i st)).
  unfold map_delete. by rewrite Hi, Hm.
Qed.

Lemma ClearResources_eq st nodeID l s (i : fin UnknownType) :
  cache_index st nodeID = Some l → snapshots st !! l = Some s →
  ClearResources nodeID (ResponseType_of i) st
  = Returned tt
      (mkState
         (<[l := vinsert i (mkResources (Version (s !!! i)) (Some (length (maps st)))) s]>
            (snapshots st))
         (maps st ++ [∅]) (cache st)).
Proof.
  intros Hc Hs. unfold ClearResources.
  rewrite (deref_node st nodeID l s (λ l s, _) Hc Hs).
  rewrite (bind_Returned _ _ _ _ _ (index_array_of i st)).
  reflexivity.
Qed.

(** C3.  Whatever the cache held before, for [nodeID] or for others, after
    [NewNodeCache nodeID] the node has a snapshot whose six collections all
    carry the version "1" and an empty item map of their own; no resource
    is found under any name in any of them, and [GetCurrentVersion] returns
    1. *)
Theorem NewNodeCache_fresh st nodeID :
  ∃ st' s,
    NewNodeCache nodeID st = Returned tt st'
    ∧ node_snapshot st' nodeID = Some s
    ∧ (∀ i : fin UnknownType,
         Version (s !!! i) = "1"%string
         ∧ allocated st' (s !!! i)
         ∧ items_of st' (s !!! i) = Some ∅)
    ∧ (∀ name (i : fin UnknownType),
         GetResource nodeID name (ResponseType_of i) st' = Returned None st')
    ∧ GetCurrentVersion nodeID st' = Returned (1, None) st'.
Proof.
  pose proof (NewNodeCache_snapshot st nodeID) as Hn.
  rewrite NewNodeCache_eq in *. cbn [final_state] in Hn.
  eexists _, _. split; [reflexivity|]. split; [exact Hn|].
  assert (Hi : ∀ i : fin UnknownType,
    Version (fresh_snapshot (length (maps st)) !!! i) = "1"%string).
  { intros i. index_cases i; reflexivity. }
  split; [|split].
  - intros i. destruct (fresh_snapshot_items (maps st) i) as (m & Hm & Hl).
    split; [apply Hi|]. unfold allocated, items_of. rewrite Hm. simpl. eauto.
  - intros name i. destruct (fresh_snapshot_items (maps st) i) as (m & Hm & Hl).
    by rewrite (GetResource_eq _ _ _ _ i m ∅ Hn Hm Hl).
  - apply node_snapshot_Some in Hn as (l & Hc & Hs).
    rewrite (GetCurrentVersion_eq _ _ l _ Hc Hs). reflexivity.
Qed.


(** C4.  For every node present in the cache and every collection of it
    that has its item map, [GetResource] straight after [SetResource] with
    the same node, type and name returns the value that was set, and
    [GetResource] straight after [DeleteResource] returns nil, the
    indication that nothing is found. *)
Theorem GetResource_after_write st nodeID name value s (i : fin UnknownType) :
  node_snapshot st nodeID = Some s →
  allocated st (s !!! i) →
  (∃ st', SetResource nodeID name (ResponseType_of i) value st = Returned tt st'
          ∧ GetResource nodeID name (ResponseType_of i) st' = Returned value st')
  ∧ (∃ st', DeleteResource nodeID name (ResponseType_of i) st = Returned tt st'
            ∧ GetResource nodeID name (ResponseType_of i) st' = Returned None st').
Proof.
  intros Hn (m & items & Hi & Hm).
  assert (Hlt : (m < length (maps st))%nat) by (eapply lookup_lt_Some, Hm).
  split; eexists; (split;
    [ first [ eapply SetResource_eq; eassumption
            | eapply DeleteResource_eq; eassumption ] | ]).
  - erewrite GetResource_eq;
      [ | exact Hn | exact Hi | simpl; by apply list_lookup_insert_eq ].
    by rewrite lookup_insert_eq.
  - erewrite GetResource_eq;
      [ | exact Hn | exact Hi | simpl; by apply list_lookup_insert_eq ].
    by rewrite lookup_delete_eq.
Qed.

(** C8.  For every node present in the cache with an initialized snapshot
    and every resource type, [ClearResources] gives the addressed
    collection an item map that is there (not nil), is a new one (no map of
    the store before) and is empty, so that [GetResource] finds nothing
    under any name of that type; the other five collections keep their map
    and its items, and all six keep their version. *)
Theorem ClearResources_frame st nodeID s (i : fin UnknownType) :
  node_snapshot st nodeID = Some s →
  initialized st s →
  ∃ st' s',
    ClearResources nodeID (ResponseType_of i) st = Returned tt st'
    ∧ node_snapshot st' nodeID = Some s'
    ∧ allocated st' (s' !!! i)
    ∧ (∃ m, Items (s' !!! i) = Some m
            ∧ maps st !! m = None ∧ maps st' !! m = Some ∅)
    ∧ items_of st' (s' !!! i) = Some ∅
    ∧ (∀ name,
         GetResource nodeID name (ResponseType_of i) st' = Returned None st')
    ∧ (∀ j : fin UnknownType, j ≠ i →
         Items (s' !!! j) = Items (s !!! j)
         ∧ items_of st' (s' !!! j) = items_of st (s !!! j))
    ∧ (∀ j : fin UnknownType, Version (s' !!! j) = Version (s !!! j)).
Proof.
  intros (l & Hc & Hs)%node_snapshot_Some Hinit.
  rewrite (ClearResources_eq st nodeID l s i Hc Hs).
  set (s' := vinsert i _ s). set (st' := mkState _ _ _).
  assert (Hn' : node_snapshot st' nodeID = Some s').
  { apply node_snapshot_Some. exists l. split; [exact Hc|]. simpl.
    apply list_lookup_insert_eq. eapply lookup_lt_Some, Hs. }
  assert (Hi' : Items (s' !!! i) = Some (length (maps st))).
  { subst s'. unfold Snapshot in *. by rewrite vlookup_insert. }
  assert (Hm' : maps st' !! length (maps st) = Some ∅).
  { simpl. by apply list_lookup_middle. }
  exists st', s'. split; [done|]. split; [done|].
  split; [by exists (length (maps st)), ∅|].
  split; [exists (length (maps st)); by rewrite lookup_ge_None|].
  split; [unfold items_of, Snapshot in *; by rewrite Hi'|].
  split; [|split].
  - intros name.
    rewrite (GetResource_eq st' nodeID name s' i _ ∅ Hn' Hi' Hm').
    by rewrite lookup_empty.
  - intros j Hj. subst s'. unfold Snapshot in *.
    rewrite vlookup_insert_ne by done. split; [done|].
    destruct (Hinit j) as (m & items & Hi & Hm). unfold items_of, Snapshot in *.
    rewrite Hi. simpl. rewrite lookup_app_l; [done|]. eapply lookup_lt_Some, Hm.
  - intros j. subst s'. unfold Snapshot in *.
    destruct (decide (j = i)) as [->|Hj].
    + by rewrite vlookup_insert.
    + by rewrite vlookup_insert_ne.
Qed.

(** ** Nodes that have no snapshot *)

Lemma DeleteNodeCache_eq st nodeID :
  DeleteNodeCache nodeID st
  = Returned tt (mkState (snapshots st) (maps st) (delete nodeID (cache st))).
Proof. reflexivity. Qed.

(** C2 (as amended).  For every node that has no snapshot in the cache, as
    is every node after [DeleteNodeCache], [GetNodeCache] returns nil
    without an error, and each of [SetResource], [GetResource],
    [DeleteResource], [ClearResources], [GetCurrentVersion],
    [BumpCacheVersion] and [SetSnapshot] panics on the nil pointer, with the
    store (and the distribution layer) as it was. *)
Theorem absent_node_panics st nodeID name rtype value :
  cache_index st nodeID = None →
  GetNodeCache nodeID st = Returned None st
  ∧ SetResource nodeID name rtype value st = Panicked NilDereference st
  ∧ GetResource nodeID name rtype st = Panicked NilDereference st
  ∧ DeleteResource nodeID name rtype st = Panicked NilDereference st
  ∧ ClearResources nodeID rtype st = Panicked NilDereference st
  ∧ GetCurrentVersion nodeID st = Panicked NilDereference st
  ∧ BumpCacheVersion nodeID st = Panicked NilDereference st
  ∧ (∀ (SnapshotCache error : Type)
       (xds_SetSnapshot : string → Snapshot → SnapshotCache → SnapshotCache * option error)
       (snapshotCache : SnapshotCache),
       SetSnapshot xds_SetSnapshot nodeID snapshotCache st
       = (Panicked NilDereference st, snapshotCache))
  ∧ (∀ st0 : State Message,
       cache_index (final_state (DeleteNodeCache nodeID st0)) nodeID = None).
Proof.
  intros Hc.
  repeat split; try (by apply deref_nil).
  - unfold GetNodeCache, index_cache. by rewrite Hc.
  - intros SC E xds d. unfold SetSnapshot. by rewrite deref_nil.
  - intros st0. unfold cache_index. simpl. by rewrite lookup_delete_eq.
Qed.

(** ** Publishing *)

(** C7 (as amended).  For every node present in the cache, [SetSnapshot]
    hands the distribution layer, under [nodeID], the snapshot struct that
    the pointer [GetNodeCache] returns points to (its six collections with
    their versions and their item maps, shared and not copied), leaves the
    store as it is, and returns nothing: whether the layer accepted the
    snapshot or refused it, the caller is not told. *)
Theorem SetSnapshot_hands_over {SnapshotCache error : Type}
    (xds_SetSnapshot : string → Snapshot → SnapshotCache → SnapshotCache * option error)
    st nodeID l s snapshotCache :
  GetNodeCache nodeID st = Returned (Some l) st →
  snapshots st !! l = Some s →
  SetSnapshot xds_SetSnapshot nodeID snapshotCache st
  = (Returned tt st, fst (xds_SetSnapshot nodeID s snapshotCache)).
Proof.
  intros Hg Hs. unfold GetNodeCache, index_cache in Hg.
  injection Hg as Hc. unfold SetSnapshot.
  unfold bind, index_cache. rewrite Hc. simpl. unfold load. rewrite Hs.
  by destruct (xds_SetSnapshot nodeID s snapshotCache).
Qed.


(** ** The footprint of the operations *)

Lemma index_array_cases rtype st :
  (∃ i : fin UnknownType,
     rtype = ResponseType_of i ∧ index_array rtype st = Returned i st)
  ∨ index_array rtype st = Panicked IndexOutOfRange st.
Proof.
  destruct (decide (0 ≤ rtype < 6)) as [H|H]; [|right; by apply index_array_panics].
  left.
  assert (rtype = 0 ∨ rtype = 1 ∨ rtype = 2 ∨ rtype = 3 ∨ rtype = 4 ∨ rtype = 5)
    as [->|[->|[->|[->|[->| ->]]]]] by lia.
  - by exists 0%fin.
  - by exists 1%fin.
  - by exists 2%fin.
  - by exists 3%fin.
  - by exists 4%fin.
  - by exists 5%fin.
Qed.

(** The three ways of reading through the pointer of a node. *)
Lemma deref_cases {A} st nodeID (k : loc → Snapshot → M Message A) :
  let run := bind (index_cache nodeID)
               (λ p, bind (nonnil p) (λ l', bind (load l') (k l'))) st in
  (∃ p, run = Panicked p st)
  ∨ (∃ l s, cache_index st nodeID = Some l ∧ snapshots st !! l = Some s
            ∧ run = k l s st).
Proof.
  intros run. subst run. unfold bind, index_cache.
  destruct (cache_index st nodeID) as [l|] eqn:Hc; simpl; [|left; eauto].
  unfold load. destruct (snapshots st !! l) as [s|] eqn:Hs; [|left; eauto].
  right. eauto.
Qed.

Lemma touches_only_refl st n : touches_only st st n.
Proof. repeat split; auto. Qed.

Lemma GetResource_final st nodeID name rtype :
  final_state (GetResource nodeID name rtype st) = st.
Proof.
  unfold GetResource.
  destruct (deref_cases st nodeID (λ _ s, bind (index_array rtype)
    (λ i, map_get (Items (s !!! i)) name))) as [[p ->] | (l & s & Hc & Hs & ->)];
    [done|].
  unfold bind. destruct (index_array_cases rtype st) as [(i & -> & ->) | ->];
    [|done].
  unfold map_get. destruct (Items (s !!! i)) as [m|]; [|done].
  by destruct (maps st !! m).
Qed.

Lemma GetCurrentVersion_final st nodeID :
  final_state (GetCurrentVersion nodeID st) = st.
Proof.
  unfold GetCurrentVersion.
  destruct (deref_cases st nodeID (λ _ s,
    let '(version, err) := strconv.Atoi (Version (s !!! 0%fin)) in
    match err with
    | Some e => ret (0, Some e)
    | None => ret (version, None)
    end)) as [[p ->] | (l & s & Hc & Hs & ->)]; [done|].
  by destruct (strconv.Atoi _) as [v [e|]].
Qed.

Lemma SetSnapshot_final {SnapshotCache error : Type}
    (xds_SetSnapshot : string → Snapshot → SnapshotCache → SnapshotCache * option error)
    st nodeID snapshotCache :
  final_state (fst (SetSnapshot xds_SetSnapshot nodeID snapshotCache st)) = st.
Proof.
  unfold SetSnapshot, bind, index_cache.
  destruct (cache_index st nodeID) as [l|]; simpl; [|done].
  unfold load. destruct (snapshots st !! l) as [s|]; [|done].
  by destruct (xds_SetSnapshot nodeID s snapshotCache).
Qed.

(** [SetResource] and [DeleteResource] end in the store they began in or in
    one where a map of the node has changed. *)
Lemma SetResource_final st nodeID name rtype value :
  final_state (SetResource nodeID name rtype value st) = st
  ∨ ∃ s (i : fin UnknownType) m items,
      node_snapshot st nodeID = Some s ∧ Items (s !!! i) = Some m
      ∧ maps st !! m = Some items
      ∧ final_state (SetResource nodeID name rtype value st)
        = set_maps (λ h, <[m := <[name := value]> items]> h) st.
Proof.
  unfold SetResource.
  destruct (deref_cases st nodeID (λ _ s, bind (index_array rtype)
    (λ i, map_set (Items (s !!! i)) name value)))
    as [[p ->] | (l & s & Hc & Hs & ->)]; [by left|].
  unfold bind. destruct (index_array_cases rtype st) as [(i & -> & ->) | ->];
    [|by left].
  unfold map_set. destruct (Items (s !!! i)) as [m|] eqn:Hi; [|by left].
  destruct (maps st !! m) as [items|] eqn:Hm; [|by left].
  right. exists s, i, m, items. repeat split; try done.
  apply node_snapshot_Some. eauto.
Qed.

Lemma DeleteResource_final st nodeID name rtype :
  final_state (DeleteResource nodeID name rtype st) = st
  ∨ ∃ s (i : fin UnknownType) m items,
      node_snapshot st nodeID = Some s ∧ Items (s !!! i) = Some m
      ∧ maps st !! m = Some items
      ∧ final_state (DeleteResource nodeID name rtype st)
        = set_maps (λ h, <[m := delete name items]> h) st.
Proof.
  unfold DeleteResource.
  destruct (deref_cases st nodeID (λ _ s, bind (index_array rtype)
    (λ i, map_delete (Items (s !!! i)) name)))
    as [[p ->] | (l & s & Hc & Hs & ->)]; [by left|].
  unfold bind. destruct (index_array_cases rtype st) as [(i & -> & ->) | ->];
    [|by left].
  unfold map_delete. destruct (Items (s !!! i)) as [m|] eqn:Hi; [|by left].
  destruct (maps st !! m) as [items|] eqn:Hm; [|by left].
  right. exists s, i, m, items. repeat split; try done.
  apply node_snapshot_Some. eauto.
Qed.

Lemma ClearResources_final st nodeID rtype :
  final_state (ClearResources nodeID rtype st) = st
  ∨ ∃ l s (i : fin UnknownType),
      cache_index st nodeID = Some l ∧ snapshots st !! l = Some s
      ∧ final_state (ClearResources nodeID rtype st)
        = mkState
            (<[l := vinsert i (mkResources (Version (s !!! i))
                                 (Some (length (maps st)))) s]> (snapshots st))
            (maps st ++ [∅]) (cache st).
Proof.
  destruct (cache_index st nodeID) as [l|] eqn:Hc;
    [|left; unfold ClearResources; by rewrite deref_nil].
  destruct (snapshots st !! l) as [s|] eqn:Hs.
  - destruct (index_array_cases rtype st) as [(i & -> & _) | Hp].
    + right. exists l, s, i. by rewrite (ClearResources_eq st nodeID l s i Hc Hs).
    + left. unfold ClearResources.
      rewrite (deref_node st nodeID l s (λ l s, _) Hc Hs).
      unfold bind. by rewrite Hp.
  - left. unfold ClearResources, bind, index_cache. rewrite Hc. simpl.
    unfold load. by rewrite Hs.
Qed.

Lemma BumpCacheVersion_final st nodeID :
  final_state (BumpCacheVersion nodeID st) = st
  ∨ ∃ l s sversion,
      cache_index st nodeID = Some l ∧ snapshots st !! l = Some s
      ∧ final_state (BumpCacheVersion nodeID st)
        = assign l (restamp sversion s) st.
Proof.
  destruct (cache_index st nodeID) as [l|] eqn:Hc;
    [|left; unfold BumpCacheVersion; by rewrite deref_nil].
  destruct (snapshots st !! l) as [s|] eqn:Hs.
  - destruct (strconv.Atoi (Version (s !!! 0%fin))) as [v [e|]] eqn:Ha.
    + left. by rewrite (BumpCacheVersion_err st nodeID l s v e Hc Hs Ha).
    + right. exists l, s, (strconv.Itoa (strconv.wrap_int (v + 1))).
      by rewrite (BumpCacheVersion_eq st nodeID l s v Hc Hs Ha).
  - left. unfold BumpCacheVersion, bind, index_cache. rewrite Hc. simpl.
    unfold load. by rewrite Hs.
Qed.


Section Frame.

Context {SnapshotCache error : Type}.
Variable xds_SetSnapshot :
  string → Snapshot → SnapshotCache → SnapshotCache * option error.

Implicit Types o : operation Message SnapshotCache.

(** Every operation stays within the footprint of its node. *)
Lemma run_touches_only o st : touches_only st (run xds_SetSnapshot o st) (target o).
Proof.
  destruct o as [n|n|n|n name rtype value|n name rtype|n name rtype|n rtype|n d|n|n];
    cbn [run target].
  - rewrite NewNodeCache_eq. simpl. repeat split.
    + intros m Hm. unfold cache_index. simpl. by rewrite lookup_insert_ne.
    + intros l s Hs _. simpl. by apply lookup_app_l_Some.
    + intros k items Hk _. simpl. by apply lookup_app_l_Some.
  - rewrite DeleteNodeCache_eq. simpl.
    split; [|split; [intros l s Hs _; exact Hs | intros k items Hk _; exact Hk]].
    intros m Hm. unfold cache_index. simpl. by rewrite lookup_delete_ne.
  - apply touches_only_refl.
  - destruct (SetResource_final st n name rtype value)
      as [-> | (s & i & m & items & Hn & Hi & Hm & ->)];
      [apply touches_only_refl|].
    split; [done|]. split; [intros l' s' Hs' _; exact Hs'|].
    intros k items' Hk Hne. simpl.
    rewrite list_lookup_insert_ne; [done|]. intros <-. by apply (Hne s i).
  - rewrite GetResource_final. apply touches_only_refl.
  - destruct (DeleteResource_final st n name rtype)
      as [-> | (s & i & m & items & Hn & Hi & Hm & ->)];
      [apply touches_only_refl|].
    split; [done|]. split; [intros l' s' Hs' _; exact Hs'|].
    intros k items' Hk Hne. simpl.
    rewrite list_lookup_insert_ne; [done|]. intros <-. by apply (Hne s i).
  - destruct (ClearResources_final st n rtype)
      as [-> | (l & s & i & Hc & Hs & ->)]; [apply touches_only_refl|].
    split; [done|]. split.
    + intros l' s' Hs' Hne. simpl. rewrite list_lookup_insert_ne; [done|].
      intros <-. by apply Hne.
    + intros k items Hk _. simpl. by apply lookup_app_l_Some.
  - rewrite SetSnapshot_final. apply touches_only_refl.
  - rewrite GetCurrentVersion_final. apply touches_only_refl.
  - destruct (BumpCacheVersion_final st n)
      as [-> | (l & s & sv & Hc & Hs & ->)]; [apply touches_only_refl|].
    split; [done|]. split; [|intros k items Hk _; exact Hk].
    intros l' s' Hs' Hne. simpl. rewrite list_lookup_insert_ne; [done|].
    intros <-. by apply Hne.
Qed.

(** In a well-formed store, what lies outside the footprint of [n] includes
    the whole entry of every other node. *)
Lemma touches_only_same_entry st st' n m :
  cache_wf st → touches_only st st' n → m ≠ n → same_entry st st' m.
Proof.
  intros (Hwf1 & Hwf2 & Hwf3) (Hcache & Hsnap & Hmaps) Hm.
  assert (Hns : node_snapshot st' m = node_snapshot st m).
  { unfold node_snapshot. rewrite (Hcache m Hm).
    destruct (cache_index st m) as [l|] eqn:Hc; [|done].
    destruct (Hwf1 m l Hc) as (s & Hs & _). rewrite Hs.
    apply Hsnap; [done|]. intros Hn. by apply (Hwf2 n m l). }
  split; [by apply Hcache|]. split; [done|].
  intros s i Hs. pose proof Hs as (l & Hc & Hl)%node_snapshot_Some.
  destruct (Hwf1 m l Hc) as (s' & Hs' & Hinit).
  assert (s' = s) as -> by congruence.
  destruct (Hinit i) as (k & items & Hi & Hk).
  unfold items_of. rewrite Hi, Hk. apply Hmaps; [done|].
  intros t j Ht. rewrite <- Hi. apply (Hwf3 n m t s j i); auto.
Qed.

(** C9.  In every store the package builds, an operation addressed to one
    node, be it [NewNodeCache], [DeleteNodeCache], [GetNodeCache],
    [SetResource], [GetResource], [DeleteResource], [ClearResources],
    [SetSnapshot], [GetCurrentVersion] or [BumpCacheVersion], whether it
    returns or panics, leaves the cache entry of every other node as it
    was: the same pointer, the same struct with the same versions, the same
    items in each collection. *)
Theorem other_nodes_unchanged o st m :
  cache_wf st → m ≠ target o → same_entry st (run xds_SetSnapshot o st) m.
Proof.
  intros Hwf Hm. eapply touches_only_same_entry; [done | apply run_touches_only | done].
Qed.


(** ** The invariant of the stores the package builds *)

Lemma NewCache_wf : cache_wf (NewCache (Message:=Message)).
Proof.
  assert (H : ∀ n, cache_index (NewCache (Message:=Message)) n = None).
  { intros n. unfold cache_index. simpl. by rewrite lookup_empty. }
  split; [|split].
  - intros n l Hc. by rewrite H in Hc.
  - intros n m l _ Hc. by rewrite H in Hc.
  - intros n m s t i j _ (l & Hc & _)%node_snapshot_Some. by rewrite H in Hc.
Qed.

(** An operation that keeps the cache map, the item maps each struct refers
    to and the set of allocated maps keeps the invariant. *)
Lemma wf_same_shape st st' :
  cache st' = cache st →
  (∀ l s, snapshots st !! l = Some s →
     ∃ s', snapshots st' !! l = Some s'
           ∧ ∀ i : fin UnknownType, Items (s' !!! i) = Items (s !!! i)) →
  (∀ k, is_Some (maps st !! k) → is_Some (maps st' !! k)) →
  cache_wf st → cache_wf st'.
Proof.
  intros Hcache Hsnap Hmaps (H1 & H2 & H3).
  assert (Hci : ∀ n, cache_index st' n = cache_index st n).
  { intros n. unfold cache_index. by rewrite Hcache. }
  assert (Hns : ∀ n s', node_snapshot st' n = Some s' →
    ∃ s, node_snapshot st n = Some s
         ∧ ∀ i : fin UnknownType, Items (s' !!! i) = Items (s !!! i)).
  { intros n s' (l & Hc & Hs')%node_snapshot_Some. rewrite Hci in Hc.
    destruct (H1 n l Hc) as (s & Hs & _).
    destruct (Hsnap l s Hs) as (s'' & Hs'' & Hi).
    assert (s'' = s') as -> by congruence.
    exists s. split; [apply node_snapshot_Some; eauto | done]. }
  split; [|split].
  - intros n l Hc. rewrite Hci in Hc. destruct (H1 n l Hc) as (s & Hs & Hinit).
    destruct (Hsnap l s Hs) as (s' & Hs' & Hi). exists s'. split; [done|].
    intros i. destruct (Hinit i) as (k & items & Hk & Hm).
    destruct (Hmaps k) as [items' Hm']; [eauto|].
    exists k, items'. by rewrite Hi.
  - intros n m l Hnm. rewrite !Hci. by apply H2.
  - intros n m s t i j Hne Hs Ht.
    destruct (Hns n s Hs) as (s0 & Hs0 & Hi).
    destruct (Hns m t Ht) as (t0 & Ht0 & Hj).
    rewrite Hi, Hj. eapply H3; eauto.
Qed.

(** Forgetting nodes keeps the invariant. *)
Lemma wf_subcache st st' :
  (∀ m l, cache_index st' m = Some l → cache_index st m = Some l) →
  snapshots st' = snapshots st → maps st' = maps st →
  cache_wf st → cache_wf st'.
Proof.
  intros Hsub Hsnap Hmaps (H1 & H2 & H3).
  assert (Hns : ∀ n s, node_snapshot st' n = Some s → node_snapshot st n = Some s).
  { intros n s (l & Hc & Hs)%node_snapshot_Some. apply node_snapshot_Some.
    exists l. split; [by apply Hsub | by rewrite <- Hsnap]. }
  split; [|split].
  - intros n l Hc. destruct (H1 n l (Hsub _ _ Hc)) as (s & Hs & Hinit).
    exists s. rewrite Hsnap. split; [done|]. intros i.
    destruct (Hinit i) as (k & items & Hk & Hm). exists k, items.
    by rewrite Hmaps.
  - intros n m l Hnm Hc Hc'. apply (H2 n m l Hnm); by apply Hsub.
  - intros n m s t i j Hne Hs Ht. eapply H3; eauto.
Qed.

(** Giving node [n] the snapshot [s'], whose item maps are those the node
    had in the same collections or new ones, keeps the invariant. *)
Lemma wf_extend st st' n l' s' :
  cache_wf st →
  touches_only st st' n →
  (∀ k items, maps st !! k = Some items → maps st' !! k = Some items) →
  cache_index st' n = Some l' → snapshots st' !! l' = Some s' →
  (∀ m, m ≠ n → cache_index st m ≠ Some l') →
  (∀ i : fin UnknownType, ∃ k,
     Items (s' !!! i) = Some k ∧ is_Some (maps st' !! k)
     ∧ ((∃ s, node_snapshot st n = Some s ∧ Items (s !!! i) = Some k)
        ∨ maps st !! k = None)) →
  (∀ i j : fin UnknownType, i ≠ j → Items (s' !!! i) ≠ Items (s' !!! j)) →
  cache_wf st'.
Proof.
  intros Hwf Hfoot Hext Hc' Hs' Hfresh Hitems Hdist.
  pose proof Hwf as (H1 & H2 & H3). pose proof Hfoot as (Hcache & Hsnap & _).
  assert (Hn : node_snapshot st' n = Some s').
  { apply node_snapshot_Some. eauto. }
  assert (Hother : ∀ m, m ≠ n → same_entry st st' m).
  { intros m Hm. by apply (touches_only_same_entry st st' n m). }
  assert (Hold : ∀ m t, m ≠ n → node_snapshot st' m = Some t →
    node_snapshot st m = Some t ∧ initialized st t).
  { intros m t Hm Ht. destruct (Hother m Hm) as (_ & Hns & _).
    rewrite Hns in Ht. split; [done|].
    apply node_snapshot_Some in Ht as (l & Hc & Hs).
    destruct (H1 m l Hc) as (t' & Ht' & Hinit).
    by assert (t' = t) as -> by congruence. }
  assert (Hcross : ∀ m t (i j : fin UnknownType), m ≠ n →
    node_snapshot st' m = Some t → Items (s' !!! i) ≠ Items (t !!! j)).
  { intros m t i j Hm Ht. destruct (Hold m t Hm Ht) as (Ht0 & Hinit).
    destruct (Hitems i) as (k & Hk & _ & [(s & Hs & Hsk) | Hnew]).
    - rewrite Hk, <- Hsk. apply (H3 n m s t i j); auto.
    - destruct (Hinit j) as (k' & items & Hk' & Hm'). rewrite Hk, Hk'.
      intros [= ->]. congruence. }
  split; [|split].
  - intros m l Hc. destruct (decide (m = n)) as [->|Hm].
    + assert (l = l') as -> by congruence. exists s'. split; [done|].
      intros i. destruct (Hitems i) as (k & Hk & [items Hm] & _).
      by exists k, items.
    + rewrite (Hcache m Hm) in Hc. destruct (H1 m l Hc) as (t & Ht & Hinit).
      exists t. split.
      * apply Hsnap; [done|]. intros Hcn. by apply (H2 n m l).
      * intros i. destruct (Hinit i) as (k & items & Hk & Hm').
        exists k, items. split; [done|]. by apply Hext.
  - intros m m' l Hmm Hc Hcm.
    destruct (decide (m = n)) as [->|Hm]; destruct (decide (m' = n)) as [->|Hm'].
    + done.
    + assert (l = l') as -> by congruence. rewrite (Hcache m' Hm') in Hcm.
      by apply (Hfresh m' Hm').
    + assert (l = l') as -> by congruence. rewrite (Hcache m Hm) in Hc.
      by apply (Hfresh m Hm).
    + rewrite (Hcache m Hm) in Hc. rewrite (Hcache m' Hm') in Hcm.
      by apply (H2 m m' l).
  - intros m m' s t i j Hne Hs Ht.
    destruct (decide (m = n)) as [->|Hm]; destruct (decide (m' = n)) as [->|Hm'].
    + assert (s = s') as -> by congruence. assert (t = s') as -> by congruence.
      apply Hdist. by destruct Hne.
    + assert (s = s') as -> by congruence. by apply (Hcross m' t i j).
    + assert (t = s') as -> by congruence. intros Heq.
      by apply (Hcross m s j i).
    + destruct (Hold m s Hm Hs) as (Hs0 & _).
      destruct (Hold m' t Hm' Ht) as (Ht0 & _). by apply (H3 m m' s t i j).
Qed.


Lemma fresh_snapshot_new (h : list (gmap string (Resource Message)))
    (i : fin UnknownType) k :
  Items (fresh_snapshot (length h) !!! i) = Some k → h !! k = None.
Proof.
  intros H. apply lookup_ge_None. revert H.
  index_cases i; simpl; intros [= <-]; lia.
Qed.

Lemma fresh_snapshot_distinct b (i j : fin UnknownType) :
  i ≠ j → Items (fresh_snapshot b !!! i) ≠ Items (fresh_snapshot b !!! j).
Proof.
  index_cases i; index_cases j; simpl; intros Hij;
    first [ by destruct Hij | intros [=]; lia ].
Qed.

Lemma insert_is_Some {A} (h : list A) m x k :
  is_Some (h !! k) → is_Some (<[m := x]> h !! k).
Proof. rewrite !lookup_lt_is_Some, length_insert. done. Qed.

(** Every operation keeps the invariant, whether it returns or panics. *)
Lemma run_wf o st : cache_wf st → cache_wf (run xds_SetSnapshot o st).
Proof.
  intros Hwf. pose proof (run_touches_only o st) as Hfoot.
  pose proof Hwf as (H1 & H2 & H3).
  destruct o as [n|n|n|n name rtype value|n name rtype|n name rtype|n rtype|n d|n|n];
    cbn [run target] in *.
  - rewrite NewNodeCache_eq in *. cbn [final_state] in *.
    eapply (wf_extend st _ n (length (snapshots st)) (fresh_snapshot (length (maps st))));
      [done | done | | | | | | ].
    + intros k items Hk. simpl. by apply lookup_app_l_Some.
    + unfold cache_index. simpl. by rewrite lookup_insert_eq.
    + simpl. by apply list_lookup_middle.
    + intros m _ Hc. destruct (H1 m _ Hc) as (s & Hs%lookup_lt_Some & _). lia.
    + intros i. destruct (fresh_snapshot_items (maps st) i) as (k & Hk & Hl).
      exists k. split; [done|]. split; [simpl; eauto|]. right.
      by apply (fresh_snapshot_new _ i).
    + apply fresh_snapshot_distinct.
  - rewrite DeleteNodeCache_eq. cbn [final_state].
    apply (wf_subcache st); [|done|done|done].
    intros m l. unfold cache_index. simpl.
    destruct (decide (m = n)) as [->|Hm].
    + by rewrite lookup_delete_eq.
    + by rewrite lookup_delete_ne.
  - done.
  - destruct (SetResource_final st n name rtype value)
      as [-> | (s & i & m & items & Hn & Hi & Hm & ->)]; [done|].
    apply (wf_same_shape st); [done | | | done].
    + intros l t Ht. exists t. done.
    + intros k. simpl. apply insert_is_Some.
  - by rewrite GetResource_final.
  - destruct (DeleteResource_final st n name rtype)
      as [-> | (s & i & m & items & Hn & Hi & Hm & ->)]; [done|].
    apply (wf_same_shape st); [done | | | done].
    + intros l t Ht. exists t. done.
    + intros k. simpl. apply insert_is_Some.
  - destruct (ClearResources_final st n rtype)
      as [-> | (l & s & i & Hc & Hs & Heq)]; [done|].
    rewrite Heq in *. clear Heq.
    destruct (H1 n l Hc) as (s0 & Hs0 & Hinit).
    assert (s0 = s) as -> by congruence.
    assert (Hn : node_snapshot st n = Some s) by (apply node_snapshot_Some; eauto).
    assert (Hlt : ∀ j k, Items (s !!! j) = Some k → (k < length (maps st))%nat).
    { intros j k Hk. destruct (Hinit j) as (k' & items & Hk' & Hm).
      assert (k' = k) as -> by congruence. eapply lookup_lt_Some, Hm. }
    unfold Snapshot in *.
    eapply (wf_extend st _ n l); [done | done | | done | | | | ].
    + intros k items Hk. simpl. by apply lookup_app_l_Some.
    + simpl. apply list_lookup_insert_eq. eapply lookup_lt_Some, Hs.
    + intros m Hm Hcm. by apply (H2 n m l).
    + intros j. unfold Snapshot in *. destruct (decide (j = i)) as [->|Hj].
      * rewrite vlookup_insert. simpl. eexists. split; [done|].
        split; [rewrite list_lookup_middle; eauto|]. right.
        by apply lookup_ge_None.
      * rewrite vlookup_insert_ne by done.
        destruct (Hinit j) as (k & items & Hk & Hm). exists k.
        split; [done|]. split; [simpl; erewrite lookup_app_l_Some; eauto|].
        left. eauto.
    + intros j j' Hjj. unfold Snapshot in *.
      destruct (decide (j = i)) as [->|Hj]; destruct (decide (j' = i)) as [->|Hj'].
      * done.
      * rewrite vlookup_insert, vlookup_insert_ne by done. simpl.
        intros Heq. symmetry in Heq. apply Hlt in Heq. lia.
      * rewrite vlookup_insert, vlookup_insert_ne by done. simpl.
        intros Heq. apply Hlt in Heq. lia.
      * rewrite !vlookup_insert_ne by done. apply (H3 n n s s j j'); auto.
  - by rewrite SetSnapshot_final.
  - by rewrite GetCurrentVersion_final.
  - destruct (BumpCacheVersion_final st n)
      as [-> | (l & s & sv & Hc & Hs & ->)]; [done|].
    apply (wf_same_shape st); [done | | done | done].
    intros l0 t Ht. simpl. destruct (decide (l0 = l)) as [->|Hl].
    + exists (restamp sv s). split.
      * apply list_lookup_insert_eq. eapply lookup_lt_Some, Hs.
      * intros i. rewrite restamp_lookup. simpl. congruence.
    + exists t. by rewrite list_lookup_insert_ne.
Qed.

(** The stores reachable from [NewCache] satisfy the invariant. *)
Lemma reachable_wf st : reachable xds_SetSnapshot st → cache_wf st.
Proof.
  induction 1 as [|o st _ IH]; [apply NewCache_wf | by apply run_wf].
Qed.

End Frame.


(** ** Reading back the version that was written *)

(** The three ways [BumpCacheVersion] ends. *)
Lemma BumpCacheVersion_cases st nodeID :
  (∃ p, BumpCacheVersion nodeID st = Panicked p st)
  ∨ (∃ e, BumpCacheVersion nodeID st = Returned (0, Some e) st)
  ∨ ∃ l s v,
      cache_index st nodeID = Some l ∧ snapshots st !! l = Some s
      ∧ strconv.Atoi (Version (s !!! 0%fin)) = (v, None)
      ∧ BumpCacheVersion nodeID st =
          Returned (strconv.wrap_int (v + 1), None)
            (assign l (restamp (strconv.Itoa (strconv.wrap_int (v + 1))) s) st).
Proof.
  destruct (cache_index st nodeID) as [l|] eqn:Hc;
    [|left; eexists; unfold BumpCacheVersion; by rewrite deref_nil].
  destruct (snapshots st !! l) as [s|] eqn:Hs.
  - destruct (strconv.Atoi (Version (s !!! 0%fin))) as [v [e|]] eqn:Ha.
    + right. left. exists e. exact (BumpCacheVersion_err st nodeID l s v e Hc Hs Ha).
    + right. right. exists l, s, v.
      by rewrite (BumpCacheVersion_eq st nodeID l s v Hc Hs Ha).
  - left. eexists. unfold BumpCacheVersion, bind, index_cache. rewrite Hc. simpl.
    unfold load. by rewrite Hs.
Qed.

(** The version a node reads after its six collections were stamped with
    the decimal of an [int]. *)
Lemma GetCurrentVersion_restamp st nodeID l s z :
  cache_index st nodeID = Some l → snapshots st !! l = Some s →
  strconv.minInt ≤ z ≤ strconv.maxInt →
  GetCurrentVersion nodeID (assign l (restamp (strconv.Itoa z) s) st)
  = Returned (z, None) (assign l (restamp (strconv.Itoa z) s) st).
Proof.
  intros Hc Hs Hz.
  rewrite (GetCurrentVersion_eq (assign l (restamp (strconv.Itoa z) s) st) nodeID l
             (restamp (strconv.Itoa z) s) Hc (assign_lookup st l _ s Hs)).
  rewrite restamp_lookup. cbn [Version]. by rewrite Atoi_Itoa_ok.
Qed.

(** X2.  Whenever [BumpCacheVersion] returns a version without an error,
    [GetCurrentVersion] called next returns that version, without an error
    and without touching the store; so does it after any further bump. *)
Theorem GetCurrentVersion_after_bump st nodeID v' st' :
  BumpCacheVersion nodeID st = Returned (v', None) st' →
  GetCurrentVersion nodeID st' = Returned (v', None) st'
  ∧ strconv.minInt ≤ v' ≤ strconv.maxInt.
Proof.
  intros Hb.
  destruct (BumpCacheVersion_cases st nodeID)
    as [[p Hp] | [[e He] | (l & s & v & Hc & Hs & Ha & Heq)]]; [congruence..|].
  rewrite Heq in Hb. injection Hb as <- <-.
  split; [|apply wrap_int_range].
  apply (GetCurrentVersion_restamp st nodeID l s _ Hc Hs), wrap_int_range.
Qed.


(** What a version returned by [GetCurrentVersion] says of the store. *)
Lemma GetCurrentVersion_inv st nodeID v st0 :
  GetCurrentVersion nodeID st = Returned (v, None) st0 →
  ∃ l s, cache_index st nodeID = Some l ∧ snapshots st !! l = Some s
         ∧ strconv.Atoi (Version (s !!! 0%fin)) = (v, None).
Proof.
  intros Hg.
  destruct (cache_index st nodeID) as [l|] eqn:Hc;
    [|unfold GetCurrentVersion in Hg; by rewrite deref_nil in Hg].
  destruct (snapshots st !! l) as [s|] eqn:Hs.
  - rewrite (GetCurrentVersion_eq st nodeID l s Hc Hs) in Hg.
    exists l, s. destruct (strconv.Atoi _) as [v0 [e|]]; [discriminate|].
    by injection Hg as -> _.
  - unfold GetCurrentVersion, bind, index_cache in Hg. rewrite Hc in Hg.
    simpl in Hg. unfold load in Hg. by rewrite Hs in Hg.
Qed.

(** One bump of a node whose version reads [v]. *)
Lemma bump_step st nodeID v st0 :
  GetCurrentVersion nodeID st = Returned (v, None) st0 →
  let st' := final_state (BumpCacheVersion nodeID st) in
  BumpCacheVersion nodeID st = Returned (strconv.wrap_int (v + 1), None) st'
  ∧ GetCurrentVersion nodeID st' = Returned (strconv.wrap_int (v + 1), None) st'.
Proof.
  intros (l & s & Hc & Hs & Ha)%GetCurrentVersion_inv.
  rewrite (BumpCacheVersion_eq st nodeID l s v Hc Hs Ha). cbn [final_state].
  split; [done|].
  apply (GetCurrentVersion_restamp st nodeID l s _ Hc Hs), wrap_int_range.
Qed.

(** X3.  Bumps add up: when [GetCurrentVersion] returns [v], after [k] calls
    of [BumpCacheVersion] it returns [v + k], as long as that is an [int]. *)
Theorem bumps_add_up st nodeID v (k : nat) :
  GetCurrentVersion nodeID st = Returned (v, None) st →
  v + Z.of_nat k ≤ strconv.maxInt →
  let st' := Nat.iter k (λ st, final_state (BumpCacheVersion nodeID st)) st in
  GetCurrentVersion nodeID st' = Returned (v + Z.of_nat k, None) st'.
Proof.
  intros Hg. induction k as [|k IH]; intros Hk.
  - simpl. by rewrite Z.add_0_r.
  - cbv zeta. cbn [Nat.iter].
    specialize (IH ltac:(lia)). cbv zeta in IH.
    pose proof IH as (l & s & _ & _ & Ha%Atoi_range)%GetCurrentVersion_inv.
    destruct (bump_step _ nodeID _ _ IH) as [_ Hg'].
    rewrite wrap_int_succ in Hg' by done.
    replace (v + Z.of_nat k =? strconv.maxInt) with false in Hg'
      by (symmetry; apply Z.eqb_neq; lia).
    by replace (v + Z.of_nat (S k)) with (v + Z.of_nat k + 1) by lia.
Qed.


(** ** The collections of a node *)

(** Reaching the collection [rtype] of a node: a panic that leaves the
    store as it is, or the collection of an index of the array. *)
Lemma collection_cases {A} st nodeID rtype
    (k : Snapshot → fin UnknownType → M Message A) :
  let run := bind (index_cache nodeID) (λ p, bind (nonnil p) (λ l, bind (load l)
               (λ s, bind (index_array rtype) (k s)))) st in
  (∃ p, run = Panicked p st)
  ∨ ∃ l s i, cache_index st nodeID = Some l ∧ snapshots st !! l = Some s
             ∧ rtype = ResponseType_of i ∧ run = k s i st.
Proof.
  intros run. subst run.
  destruct (deref_cases st nodeID (λ _ s, bind (index_array rtype) (k s)))
    as [[p ->] | (l & s & Hc & Hs & ->)]; [left; eauto|].
  unfold bind. destruct (index_array_cases rtype st) as [(i & -> & ->) | ->];
    [right; by exists l, s, i | left; eauto].
Qed.

Lemma SetResource_cases st nodeID name rtype value :
  (∃ p, SetResource nodeID name rtype value st = Panicked p st)
  ∨ ∃ s (i : fin UnknownType) m items,
      rtype = ResponseType_of i ∧ node_snapshot st nodeID = Some s
      ∧ Items (s !!! i) = Some m ∧ maps st !! m = Some items
      ∧ SetResource nodeID name rtype value st
        = Returned tt (set_maps (λ h, <[m := <[name := value]> items]> h) st).
Proof.
  unfold SetResource.
  destruct (collection_cases st nodeID rtype
              (λ s i, map_set (Items (s !!! i)) name value))
    as [[p ->] | (l & s & i & Hc & Hs & -> & ->)]; [left; eauto|].
  unfold map_set. destruct (Items (s !!! i)) as [m|] eqn:Hi; [|left; eauto].
  destruct (maps st !! m) as [items|] eqn:Hm; [|left; eauto].
  right. exists s, i, m, items. repeat split; try done.
  apply node_snapshot_Some. eauto.
Qed.

(** Replacing the contents of one item map keeps the nodes and their
    structs. *)
Lemma set_maps_node_snapshot f st nodeID :
  node_snapshot (set_maps f st) nodeID = node_snapshot st nodeID.
Proof. reflexivity. Qed.

Lemma set_maps_id st m items :
  maps st !! m = Some items → set_maps (λ h, <[m := items]> h) st = st.
Proof.
  intros Hm. destruct st as [h ms c]. unfold set_maps. simpl in *.
  by rewrite list_insert_id.
Qed.

Lemma set_maps_set_maps st m items1 items2 :
  set_maps (λ h, <[m := items2]> h) (set_maps (λ h, <[m := items1]> h) st)
  = set_maps (λ h, <[m := items2]> h) st.
Proof. unfold set_maps. simpl. by rewrite list_insert_insert_eq. Qed.

Lemma set_maps_lookup st m items items0 :
  maps st !! m = Some items0 →
  maps (set_maps (λ h, <[m := items]> h) st) !! m = Some items.
Proof. intros H. simpl. apply list_lookup_insert_eq. eapply lookup_lt_Some, H. Qed.

(** X4.  An index other than 0 to 5 is out of range in every collection
    operation: for a node that has a snapshot, [SetResource], [GetResource],
    [DeleteResource] and [ClearResources] called with a resource type
    outside the six constants (such as [UnknownType], 6, or a negative
    number) panic on the array index and leave the store as it was. *)
Theorem unknown_type_panics st nodeID name rtype value s :
  node_snapshot st nodeID = Some s →
  ¬ (0 ≤ rtype < Z.of_nat UnknownType) →
  SetResource nodeID name rtype value st = Panicked IndexOutOfRange st
  ∧ GetResource nodeID name rtype st = Panicked IndexOutOfRange st
  ∧ DeleteResource nodeID name rtype st = Panicked IndexOutOfRange st
  ∧ ClearResources nodeID rtype st = Panicked IndexOutOfRange st.
Proof.
  intros (l & Hc & Hs)%node_snapshot_Some Hr.
  assert (Hp : index_array rtype st = Panicked IndexOutOfRange st).
  { apply index_array_panics. unfold UnknownType in Hr. lia. }
  unfold SetResource, GetResource, DeleteResource, ClearResources.
  rewrite !(deref_node st nodeID l s (λ l s, _) Hc Hs).
  unfold bind. by rewrite Hp.
Qed.

(** X5.  A collection whose item map is nil, as in a zero-value snapshot put
    into the cache from outside the package: [SetResource] panics on the
    assignment to the nil map, [GetResource] finds nothing, [DeleteResource]
    does nothing, and [ClearResources] gives the collection a map, after
    which [SetResource] returns. *)
Theorem nil_items_map st nodeID name value s (i : fin UnknownType) :
  node_snapshot st nodeID = Some s →
  Items (s !!! i) = None →
  SetResource nodeID name (ResponseType_of i) value st
    = Panicked AssignmentToNilMap st
  ∧ GetResource nodeID name (ResponseType_of i) st = Returned None st
  ∧ DeleteResource nodeID name (ResponseType_of i) st = Returned tt st
  ∧ ∃ st' st'',
      ClearResources nodeID (ResponseType_of i) st = Returned tt st'
      ∧ SetResource nodeID name (ResponseType_of i) value st' = Returned tt st''
      ∧ GetResource nodeID name (ResponseType_of i) st'' = Returned value st''.
Proof.
  intros (l & Hc & Hs)%node_snapshot_Some Hi.
  assert (Hnil : ∀ A (k : option loc → M Message A),
    bind (index_cache nodeID) (λ p, bind (nonnil p) (λ l, bind (load l)
      (λ s, bind (index_array (ResponseType_of i)) (λ i, k (Items (s !!! i)))))) st
    = k None st).
  { intros A k. rewrite (deref_node st nodeID l s (λ l s, _) Hc Hs).
    by rewrite (bind_Returned _ _ _ _ _ (index_array_of i st)), Hi. }
  split; [exact (Hnil _ (λ m, map_set m name value))|].
  split; [exact (Hnil _ (λ m, map_get m name))|].
  split; [exact (Hnil _ (λ m, map_delete m name))|].
  rewrite (ClearResources_eq st nodeID l s i Hc Hs).
  set (s' := vinsert i _ s). set (st' := mkState _ _ _).
  assert (Hn' : node_snapshot st' nodeID = Some s').
  { apply node_snapshot_Some. exists l. split; [done|]. simpl.
    apply list_lookup_insert_eq. eapply lookup_lt_Some, Hs. }
  assert (Hi' : Items (s' !!! i) = Some (length (maps st))).
  { subst s'. unfold Snapshot in *. by rewrite vlookup_insert. }
  assert (Hm' : maps st' !! length (maps st) = Some ∅).
  { simpl. by apply list_lookup_middle. }
  eexists _, _. split; [done|]. split.
  - apply (SetResource_eq st' nodeID name value s' i _ _ Hn' Hi' Hm').
  - erewrite GetResource_eq;
      [ | exact Hn' | exact Hi' | eapply set_maps_lookup, Hm' ].
    by rewrite lookup_insert_eq.
Qed.


(** ** Writing one resource *)

(** In a store the package builds, giving the item map of collection [i] of
    a node new contents changes what [GetResource] finds there and nothing
    else of the node. *)
Lemma update_items_frame st nodeID s (i : fin UnknownType) m items items' :
  cache_wf st → node_snapshot st nodeID = Some s →
  Items (s !!! i) = Some m → maps st !! m = Some items →
  let st' := set_maps (λ h, <[m := items']> h) st in
  node_snapshot st' nodeID = Some s
  ∧ items_of st' (s !!! i) = Some items'
  ∧ (∀ j : fin UnknownType, j ≠ i → items_of st' (s !!! j) = items_of st (s !!! j))
  ∧ (∀ name' (j : fin UnknownType),
       j ≠ i ∨ items' !! name' = items !! name' →
       ∃ r, GetResource nodeID name' (ResponseType_of j) st = Returned r st
            ∧ GetResource nodeID name' (ResponseType_of j) st' = Returned r st').
Proof.
  intros (H1 & _ & H3) Hn Hi Hm st'.
  pose proof Hn as (l & Hc & Hs)%node_snapshot_Some.
  destruct (H1 nodeID l Hc) as (s0 & Hs0 & Hinit).
  assert (s0 = s) as -> by congruence.
  assert (Hother : ∀ j k, j ≠ i → Items (s !!! j) = Some k →
    maps st' !! k = maps st !! k).
  { intros j k Hj Hk. simpl. apply list_lookup_insert_ne. intros <-.
    apply (H3 nodeID nodeID s s j i); [by right | done | done | congruence]. }
  assert (Hi' : maps st' !! m = Some items') by (eapply set_maps_lookup, Hm).
  split; [done|]. split; [|split].
  - unfold items_of. by rewrite Hi.
  - intros j Hj. destruct (Hinit j) as (k & itemsj & Hk & Hmk).
    unfold items_of. rewrite Hk. by apply (Hother j).
  - intros name' j Hj. destruct (decide (j = i)) as [->|Hne].
    + destruct Hj as [Hj|Hj]; [done|]. eexists. split.
      * apply (GetResource_eq st nodeID name' s i m items Hn Hi Hm).
      * rewrite (GetResource_eq st' nodeID name' s i m items' Hn Hi Hi').
        unfold Resource in *. by rewrite Hj.
    + destruct (Hinit j) as (k & itemsj & Hk & Hmk). eexists. split.
      * apply (GetResource_eq st nodeID name' s j k itemsj Hn Hk Hmk).
      * apply (GetResource_eq st' nodeID name' s j k itemsj Hn Hk).
        by rewrite (Hother j k Hne Hk).
Qed.

(** X6.  In every store the package builds, [SetResource] on a node that has
    a snapshot returns, adds or replaces the one named item of the addressed
    collection, and changes nothing else of the node: the struct keeps its
    six versions (nothing is bumped) and its six maps, the other five
    collections keep their items, and [GetResource] finds what it found
    before under every other name and in every other collection. *)
Theorem SetResource_frame st nodeID name value s (i : fin UnknownType) :
  cache_wf st → node_snapshot st nodeID = Some s →
  ∃ st' items,
    SetResource nodeID name (ResponseType_of i) value st = Returned tt st'
    ∧ items_of st (s !!! i) = Some items
    ∧ node_snapshot st' nodeID = Some s
    ∧ items_of st' (s !!! i) = Some (<[name := value]> items)
    ∧ (∀ j : fin UnknownType, j ≠ i →
         items_of st' (s !!! j) = items_of st (s !!! j))
    ∧ (∀ name' (j : fin UnknownType), j ≠ i ∨ name' ≠ name →
         ∃ r, GetResource nodeID name' (ResponseType_of j) st = Returned r st
              ∧ GetResource nodeID name' (ResponseType_of j) st' = Returned r st').
Proof.
  intros Hwf Hn. pose proof Hwf as (H1 & _).
  pose proof Hn as (l & Hc & Hs)%node_snapshot_Some.
  destruct (H1 nodeID l Hc) as (s0 & Hs0 & Hinit).
  assert (s0 = s) as -> by congruence.
  destruct (Hinit i) as (m & items & Hi & Hm).
  destruct (update_items_frame st nodeID s i m items (<[name := value]> items)
              Hwf Hn Hi Hm) as (Hn' & Hi' & Hj' & Hget).
  eexists _, items.
  split; [apply (SetResource_eq st nodeID name value s i m items Hn Hi Hm)|].
  split; [unfold items_of; by rewrite Hi|].
  split; [done|]. split; [done|]. split; [done|].
  intros name' j Hj. apply Hget. destruct Hj as [Hj|Hj]; [by left|right].
  by rewrite lookup_insert_ne.
Qed.

(** X7.  In every store the package builds, [DeleteResource] on a node that
    has a snapshot returns, removes the one named item of the addressed
    collection, and changes nothing else of the node: versions, maps, the
    other collections and the other names are as before. *)
Theorem DeleteResource_frame st nodeID name s (i : fin UnknownType) :
  cache_wf st → node_snapshot st nodeID = Some s →
  ∃ st' items,
    DeleteResource nodeID name (ResponseType_of i) st = Returned tt st'
    ∧ items_of st (s !!! i) = Some items
    ∧ node_snapshot st' nodeID = Some s
    ∧ items_of st' (s !!! i) = Some (delete name items)
    ∧ (∀ j : fin UnknownType, j ≠ i →
         items_of st' (s !!! j) = items_of st (s !!! j))
    ∧ (∀ name' (j : fin UnknownType), j ≠ i ∨ name' ≠ name →
         ∃ r, GetResource nodeID name' (ResponseType_of j) st = Returned r st
              ∧ GetResource nodeID name' (ResponseType_of j) st' = Returned r st').
Proof.
  intros Hwf Hn. pose proof Hwf as (H1 & _).
  pose proof Hn as (l & Hc & Hs)%node_snapshot_Some.
  destruct (H1 nodeID l Hc) as (s0 & Hs0 & Hinit).
  assert (s0 = s) as -> by congruence.
  destruct (Hinit i) as (m & items & Hi & Hm).
  destruct (update_items_frame st nodeID s i m items (delete name items)
              Hwf Hn Hi Hm) as (Hn' & Hi' & Hj' & Hget).
  eexists _, items.
  split; [apply (DeleteResource_eq st nodeID name s i m items Hn Hi Hm)|].
  split; [unfold items_of; by rewrite Hi|].
  split; [done|]. split; [done|]. split; [done|].
  intros name' j Hj. apply Hget. destruct Hj as [Hj|Hj]; [by left|right].
  by rewrite lookup_delete_ne.
Qed.

(** X8.  The last write wins: [SetResource] twice under the same node, type
    and name leaves the store that the second call alone leaves, whatever
    the store and the arguments (when the calls panic, nothing is written). *)
Theorem SetResource_overwrites st nodeID name rtype value1 value2 :
  final_state (SetResource nodeID name rtype value2
                 (final_state (SetResource nodeID name rtype value1 st)))
  = final_state (SetResource nodeID name rtype value2 st).
Proof.
  destruct (SetResource_cases st nodeID name rtype value1)
    as [[p ->] | (s & i & m & items & -> & Hn & Hi & Hm & ->)]; [done|].
  cbn [final_state].
  rewrite (SetResource_eq st nodeID name value2 s i m items Hn Hi Hm).
  erewrite SetResource_eq;
    [ | rewrite set_maps_node_snapshot; exact Hn | exact Hi
      | eapply set_maps_lookup, Hm ].
  cbn [final_state]. by rewrite set_maps_set_maps, insert_insert_eq.
Qed.

(** X9.  [DeleteResource] of a name the collection does not hold returns and
    leaves the store exactly as it was. *)
Theorem DeleteResource_absent st nodeID name s (i : fin UnknownType) items :
  node_snapshot st nodeID = Some s →
  items_of st (s !!! i) = Some items → items !! name = None →
  DeleteResource nodeID name (ResponseType_of i) st = Returned tt st.
Proof.
  intros Hn Hitems Hname. unfold items_of in Hitems.
  destruct (Items (s !!! i)) as [m|] eqn:Hi.
  - rewrite (DeleteResource_eq st nodeID name s i m items Hn Hi Hitems).
    by rewrite delete_id, set_maps_id.
  - apply node_snapshot_Some in Hn as (l & Hc & Hs). unfold DeleteResource.
    rewrite (deref_node st nodeID l s (λ l s, _) Hc Hs).
    rewrite (bind_Returned _ _ _ _ _ (index_array_of i st)).
    unfold map_delete. by rewrite Hi.
Qed.

(** X10.  Setting a resource under a name the collection does not hold and
    deleting it again gives back the store as it was before the two calls. *)
Theorem SetResource_then_DeleteResource st nodeID name value s
    (i : fin UnknownType) items :
  node_snapshot st nodeID = Some s → allocated st (s !!! i) →
  items_of st (s !!! i) = Some items → items !! name = None →
  ∃ st',
    SetResource nodeID name (ResponseType_of i) value st = Returned tt st'
    ∧ DeleteResource nodeID name (ResponseType_of i) st' = Returned tt st.
Proof.
  intros Hn (m & items0 & Hi & Hm) Hitems Hname.
  unfold items_of in Hitems. rewrite Hi, Hm in Hitems. injection Hitems as ->.
  eexists. split; [apply (SetResource_eq st nodeID name value s i m items Hn Hi Hm)|].
  erewrite DeleteResource_eq;
    [ | rewrite set_maps_node_snapshot; exact Hn | exact Hi
      | eapply set_maps_lookup, Hm ].
  by rewrite set_maps_set_maps, delete_insert_id, set_maps_id.
Qed.


(** X11.  Writes to different places commute: in every store the package
    builds, two [SetResource] calls that differ in the node, the type or the
    name, each on a node that has a snapshot, return and leave the same
    store in either order. *)
Theorem SetResource_commutes st nodeID1 name1 (i1 : fin UnknownType) value1
    nodeID2 name2 (i2 : fin UnknownType) value2 s1 s2 :
  cache_wf st →
  node_snapshot st nodeID1 = Some s1 → node_snapshot st nodeID2 = Some s2 →
  nodeID1 ≠ nodeID2 ∨ i1 ≠ i2 ∨ name1 ≠ name2 →
  ∃ st1 st2 st',
    SetResource nodeID1 name1 (ResponseType_of i1) value1 st = Returned tt st1
    ∧ SetResource nodeID2 name2 (ResponseType_of i2) value2 st1 = Returned tt st'
    ∧ SetResource nodeID2 name2 (ResponseType_of i2) value2 st = Returned tt st2
    ∧ SetResource nodeID1 name1 (ResponseType_of i1) value1 st2 = Returned tt st'.
Proof.
  intros Hwf Hn1 Hn2 Hne. pose proof Hwf as (H1 & _ & H3).
  assert (Hall : ∀ n s (i : fin UnknownType), node_snapshot st n = Some s →
    allocated st (s !!! i)).
  { intros n s i (l & Hc & Hs)%node_snapshot_Some.
    destruct (H1 n l Hc) as (s0 & Hs0 & Hinit).
    by assert (s0 = s) as -> by congruence. }
  destruct (Hall _ _ i1 Hn1) as (m1 & items1 & Hi1 & Hm1).
  destruct (Hall _ _ i2 Hn2) as (m2 & items2 & Hi2 & Hm2).
  destruct (decide (m1 = m2)) as [->|Hm].
  - assert (nodeID1 = nodeID2 ∧ i1 = i2) as [-> ->].
    { destruct (decide (nodeID1 = nodeID2)) as [?|Hn];
        destruct (decide (i1 = i2)) as [?|Hi]; [done|..];
        destruct (H3 nodeID1 nodeID2 s1 s2 i1 i2); auto; congruence. }
    assert (s1 = s2) as -> by congruence.
    assert (items1 = items2) as -> by congruence.
    destruct Hne as [?|[?|Hname]]; [done..|].
    eexists _, _, _.
    split; [apply (SetResource_eq st _ name1 value1 s2 i2 m2 items2 Hn2 Hi2 Hm2)|].
    split; [erewrite SetResource_eq;
              [ reflexivity | rewrite set_maps_node_snapshot; exact Hn2 | exact Hi2
              | eapply set_maps_lookup, Hm2 ]|].
    split; [apply (SetResource_eq st _ name2 value2 s2 i2 m2 items2 Hn2 Hi2 Hm2)|].
    erewrite SetResource_eq;
      [ | rewrite set_maps_node_snapshot; exact Hn2 | exact Hi2
        | eapply set_maps_lookup, Hm2 ].
    rewrite !set_maps_set_maps. do 3 f_equal. by apply insert_insert_ne.
  - eexists _, _, _.
    split; [apply (SetResource_eq st _ name1 value1 s1 i1 m1 items1 Hn1 Hi1 Hm1)|].
    split; [erewrite SetResource_eq;
              [ reflexivity | rewrite set_maps_node_snapshot; exact Hn2 | exact Hi2
              | simpl; by rewrite list_lookup_insert_ne ]|].
    split; [apply (SetResource_eq st _ name2 value2 s2 i2 m2 items2 Hn2 Hi2 Hm2)|].
    erewrite SetResource_eq;
      [ | rewrite set_maps_node_snapshot; exact Hn1 | exact Hi1
        | simpl; by rewrite list_lookup_insert_ne ].
    unfold set_maps. simpl. do 2 f_equal. by apply list_insert_insert_ne.
Qed.


(** X12.  [ClearResources] detaches the collection from the snapshots taken
    before: for a node with an initialized snapshot [s], after
    [ClearResources] a [SetResource] on the same collection returns and is
    found by [GetResource], while the items read through [s], in the cleared
    collection as in the others, are still those of before. *)
Theorem ClearResources_detaches st nodeID name value s (i : fin UnknownType) :
  node_snapshot st nodeID = Some s → initialized st s →
  ∃ st1 st2,
    ClearResources nodeID (ResponseType_of i) st = Returned tt st1
    ∧ SetResource nodeID name (ResponseType_of i) value st1 = Returned tt st2
    ∧ GetResource nodeID name (ResponseType_of i) st2 = Returned value st2
    ∧ ∀ j : fin UnknownType, items_of st2 (s !!! j) = items_of st (s !!! j).
Proof.
  intros (l & Hc & Hs)%node_snapshot_Some Hinit.
  rewrite (ClearResources_eq st nodeID l s i Hc Hs).
  set (s' := vinsert i _ s). set (st1 := mkState _ _ _).
  assert (Hn' : node_snapshot st1 nodeID = Some s').
  { apply node_snapshot_Some. exists l. split; [done|]. simpl.
    apply list_lookup_insert_eq. eapply lookup_lt_Some, Hs. }
  assert (Hi' : Items (s' !!! i) = Some (length (maps st))).
  { subst s'. unfold Snapshot in *. by rewrite vlookup_insert. }
  assert (Hm' : maps st1 !! length (maps st) = Some ∅).
  { simpl. by apply list_lookup_middle. }
  eexists _, _. split; [done|].
  split; [apply (SetResource_eq st1 nodeID name value s' i _ _ Hn' Hi' Hm')|].
  split.
  - erewrite GetResource_eq;
      [ | exact Hn' | exact Hi' | eapply set_maps_lookup, Hm' ].
    by rewrite lookup_insert_eq.
  - intros j. destruct (Hinit j) as (k & items & Hk & Hm).
    unfold items_of. rewrite Hk, Hm. simpl.
    rewrite list_lookup_insert_ne by (apply lookup_lt_Some in Hm; lia).
    by apply lookup_app_l_Some.
Qed.

(** X13.  The two version operations fail together: when [GetCurrentVersion]
    returns an error, the number returned with it is 0 (not the clamped
    number [strconv.Atoi] itself gives on a range error), the store is as it
    was, the error is the [*strconv.NumError] of [Atoi] quoting the version
    string of the Endpoint collection, and [BumpCacheVersion] returns the
    very same. *)
Theorem version_error_reports st nodeID v e st' :
  GetCurrentVersion nodeID st = Returned (v, Some e) st' →
  v = 0 ∧ st' = st
  ∧ BumpCacheVersion nodeID st = Returned (0, Some e) st
  ∧ ∃ s, node_snapshot st nodeID = Some s
         ∧ strconv.Func e = "Atoi"%string
         ∧ strconv.Num e = Version (s !!! 0%fin).
Proof.
  intros Hg.
  destruct (cache_index st nodeID) as [l|] eqn:Hc;
    [|unfold GetCurrentVersion in Hg; by rewrite deref_nil in Hg].
  destruct (snapshots st !! l) as [s|] eqn:Hs.
  - rewrite (GetCurrentVersion_eq st nodeID l s Hc Hs) in Hg.
    destruct (strconv.Atoi (Version (s !!! 0%fin))) as [v0 [e0|]] eqn:Ha;
      [|discriminate].
    injection Hg as <- <- <-. split; [done|]. split; [done|].
    split; [exact (BumpCacheVersion_err st nodeID l s v0 e0 Hc Hs Ha)|].
    exists s. split; [apply node_snapshot_Some; eauto|].
    unfold strconv.Atoi in Ha.
    destruct (strconv.ParseInt (Version (s !!! 0%fin))) as [n [k|]];
      [|discriminate].
    by injection Ha as _ <-.
  - unfold GetCurrentVersion, bind, index_cache in Hg. rewrite Hc in Hg.
    simpl in Hg. unfold load in Hg. by rewrite Hs in Hg.
Qed.

(** ** Creating a node again, deleting a node that is not there *)

(** X14.  [DeleteNodeCache] of a node the cache map has no key for returns
    and leaves the store exactly as it was. *)
Theorem DeleteNodeCache_absent st nodeID :
  cache st !! nodeID = None → DeleteNodeCache nodeID st = Returned tt st.
Proof.
  intros Hc. rewrite DeleteNodeCache_eq. destruct st as [h ms c]. simpl in *.
  by rewrite delete_id.
Qed.

(** X15.  [NewNodeCache] discards what the node had: deleting the node first
    makes no difference to the store it leaves. *)
Theorem NewNodeCache_after_DeleteNodeCache st nodeID :
  NewNodeCache nodeID (final_state (DeleteNodeCache nodeID st))
  = NewNodeCache nodeID st.
Proof.
  rewrite !NewNodeCache_eq, DeleteNodeCache_eq. simpl.
  by rewrite insert_delete_eq.
Qed.

(** X16.  [NewNodeCache] allocates: the struct it gives the node is a new
    one with maps of its own. Every struct that existed before, such as the
    one a pointer from an earlier [GetNodeCache] of the same node leads to,
    stays as it was with all its items, and shares no item map with the new
    one. *)
Theorem NewNodeCache_replaces st nodeID l s :
  snapshots st !! l = Some s → initialized st s →
  ∃ st' l' s',
    NewNodeCache nodeID st = Returned tt st'
    ∧ GetNodeCache nodeID st' = Returned (Some l') st'
    ∧ l' ≠ l
    ∧ snapshots st' !! l' = Some s'
    ∧ snapshots st' !! l = Some s
    ∧ (∀ j : fin UnknownType, items_of st' (s !!! j) = items_of st (s !!! j))
    ∧ (∀ i j : fin UnknownType, Items (s' !!! i) ≠ Items (s !!! j)).
Proof.
  intros Hs Hinit. rewrite NewNodeCache_eq.
  eexists _, (length (snapshots st)), (fresh_snapshot (length (maps st))).
  split; [done|]. split.
  { unfold GetNodeCache, index_cache, cache_index. simpl.
    by rewrite lookup_insert_eq. }
  split; [apply lookup_lt_Some in Hs; lia|].
  split; [simpl; by apply list_lookup_middle|].
  split; [simpl; by apply lookup_app_l_Some|]. split.
  - intros j. destruct (Hinit j) as (k & items & Hk & Hm).
    unfold items_of. rewrite Hk, Hm. simpl. by apply lookup_app_l_Some.
  - intros i j Heq. destruct (Hinit j) as (k & items & Hk & Hm).
    rewrite Hk in Heq. apply (fresh_snapshot_new (maps st) i k) in Heq.
    congruence.
Qed.

Section Coverage.

Context {SnapshotCache error : Type}.
Variable xds_SetSnapshot :
  string → Snapshot → SnapshotCache → SnapshotCache * option error.

Implicit Types o : operation Message SnapshotCache.

(** ** What the operations leave alone *)

(** X17.  The four reading operations, [GetNodeCache], [GetResource],
    [GetCurrentVersion] and [SetSnapshot], leave the store exactly as it
    was, whether they return or panic. *)
Theorem readers_leave_store st nodeID name rtype snapshotCache :
  final_state (GetNodeCache nodeID st) = st
  ∧ final_state (GetResource nodeID name rtype st) = st
  ∧ final_state (GetCurrentVersion nodeID st) = st
  ∧ final_state (fst (SetSnapshot xds_SetSnapshot nodeID snapshotCache st)) = st.
Proof.
  split; [done|]. split; [apply GetResource_final|].
  split; [apply GetCurrentVersion_final | apply SetSnapshot_final].
Qed.

(** The cache map after an operation that is neither [NewNodeCache] nor
    [DeleteNodeCache]. *)
Lemma run_cache o st :
  (∀ n, o ≠ OpNewNodeCache n) → (∀ n, o ≠ OpDeleteNodeCache n) →
  cache (run xds_SetSnapshot o st) = cache st.
Proof.
  intros Hnew Hdel.
  destruct o as [n|n|n|n name rtype value|n name rtype|n name rtype|n rtype|n d|n|n];
    cbn [run].
  - by destruct (Hnew n).
  - by destruct (Hdel n).
  - done.
  - by destruct (SetResource_final st n name rtype value)
      as [-> | (s & i & m & items & _ & _ & _ & ->)].
  - by rewrite GetResource_final.
  - by destruct (DeleteResource_final st n name rtype)
      as [-> | (s & i & m & items & _ & _ & _ & ->)].
  - by destruct (ClearResources_final st n rtype)
      as [-> | (l & s & i & _ & _ & ->)].
  - by rewrite SetSnapshot_final.
  - by rewrite GetCurrentVersion_final.
  - by destruct (BumpCacheVersion_final st n)
      as [-> | (l & s & sv & _ & _ & ->)].
Qed.

(** X18.  The pointer of a node is stable: what [GetNodeCache] returns for a
    node is changed by no operation other than [NewNodeCache] and
    [DeleteNodeCache] of that very node, whether the operation returns or
    panics. *)
Theorem node_pointer_stable o st nodeID :
  o ≠ OpNewNodeCache nodeID → o ≠ OpDeleteNodeCache nodeID →
  GetNodeCache nodeID (run xds_SetSnapshot o st)
  = Returned (cache_index st nodeID) (run xds_SetSnapshot o st).
Proof.
  intros Hnew Hdel. unfold GetNodeCache, index_cache. f_equal.
  destruct (decide (nodeID = target o)) as [->|Hn].
  - unfold cache_index. rewrite run_cache; [done|..]; intros n ->; done.
  - by apply (run_touches_only xds_SetSnapshot o st).
Qed.


(** ** Snapshots handed out earlier *)

(** The item maps that exist are changed by [SetResource] and
    [DeleteResource] only. *)
Lemma run_maps o st k items :
  (∀ n name rtype value, o ≠ OpSetResource n name rtype value) →
  (∀ n name rtype, o ≠ OpDeleteResource n name rtype) →
  maps st !! k = Some items → maps (run xds_SetSnapshot o st) !! k = Some items.
Proof.
  intros Hset Hdel Hk.
  destruct o as [n|n|n|n name rtype value|n name rtype|n name rtype|n rtype|n d|n|n];
    cbn [run].
  - rewrite NewNodeCache_eq. simpl. by apply lookup_app_l_Some.
  - done.
  - done.
  - by destruct (Hset n name rtype value).
  - by rewrite GetResource_final.
  - by destruct (Hdel n name rtype).
  - destruct (ClearResources_final st n rtype)
      as [-> | (l & s & i & _ & _ & ->)]; [done|].
    simpl. by apply lookup_app_l_Some.
  - by rewrite SetSnapshot_final.
  - by rewrite GetCurrentVersion_final.
  - by destruct (BumpCacheVersion_final st n)
      as [-> | (l & s & sv & _ & _ & ->)].
Qed.

(** X19.  A snapshot value taken earlier, such as the one [SetSnapshot]
    handed to the distribution layer, keeps the items of its six collections
    through every operation other than [SetResource] and [DeleteResource],
    on whatever node: [ClearResources] installs a new map and does not empty
    the old one, [NewNodeCache] and [DeleteNodeCache] leave the old maps in
    place, [BumpCacheVersion] writes versions only. *)
Theorem earlier_snapshot_keeps_items o st s :
  (∀ n name rtype value, o ≠ OpSetResource n name rtype value) →
  (∀ n name rtype, o ≠ OpDeleteResource n name rtype) →
  initialized st s →
  ∀ j : fin UnknownType,
    items_of (run xds_SetSnapshot o st) (s !!! j) = items_of st (s !!! j).
Proof.
  intros Hset Hdel Hinit j. destruct (Hinit j) as (k & items & Hk & Hm).
  unfold items_of. rewrite Hk, Hm. by apply run_maps.
Qed.

(** [SetSnapshot] on a node that has a snapshot. *)
Lemma SetSnapshot_eq st nodeID s snapshotCache :
  node_snapshot st nodeID = Some s →
  SetSnapshot xds_SetSnapshot nodeID snapshotCache st
  = (Returned tt st, fst (xds_SetSnapshot nodeID s snapshotCache)).
Proof.
  intros (l & Hc & Hs)%node_snapshot_Some. unfold SetSnapshot.
  unfold bind, index_cache. rewrite Hc. simpl. unfold load. rewrite Hs.
  by destruct (xds_SetSnapshot nodeID s snapshotCache).
Qed.

(** X20.  [SetResource] does not bump the version, and item maps are shared,
    not copied: in every store the package builds, [SetSnapshot] before and
    after a [SetResource] hands the distribution layer the same struct, with
    the same six versions and the same six maps, although the items of the
    addressed collection, read through either, now include the resource that
    was set. *)
Theorem republish_without_bump st nodeID name value s (i : fin UnknownType)
    snapshotCache snapshotCache' :
  cache_wf st → node_snapshot st nodeID = Some s →
  ∃ st' items,
    SetSnapshot xds_SetSnapshot nodeID snapshotCache st
    = (Returned tt st, fst (xds_SetSnapshot nodeID s snapshotCache))
    ∧ SetResource nodeID name (ResponseType_of i) value st = Returned tt st'
    ∧ SetSnapshot xds_SetSnapshot nodeID snapshotCache' st'
      = (Returned tt st', fst (xds_SetSnapshot nodeID s snapshotCache'))
    ∧ items_of st (s !!! i) = Some items
    ∧ items_of st' (s !!! i) = Some (<[name := value]> items).
Proof.
  intros Hwf Hn. pose proof Hwf as (H1 & _).
  pose proof Hn as (l & Hc & Hs)%node_snapshot_Some.
  destruct (H1 nodeID l Hc) as (s0 & Hs0 & Hinit).
  assert (s0 = s) as -> by congruence.
  destruct (Hinit i) as (m & items & Hi & Hm).
  destruct (update_items_frame st nodeID s i m items (<[name := value]> items)
              Hwf Hn Hi Hm) as (Hn' & Hi' & _).
  eexists _, items. split; [by apply SetSnapshot_eq|].
  split; [apply (SetResource_eq st nodeID name value s i m items Hn Hi Hm)|].
  split; [by apply SetSnapshot_eq|].
  split; [unfold items_of; by rewrite Hi | done].
Qed.

(** X21.  The update cycle: in every store the package builds, for a node
    whose version reads [v], [SetResource], then [BumpCacheVersion], then
    [SetSnapshot] all return, and the distribution layer is handed a
    snapshot whose six collections carry the decimal of the bumped version
    and whose items are those of before plus the resource that was set. *)
Theorem publish_after_update st nodeID name value s (i : fin UnknownType) v
    snapshotCache :
  cache_wf st → node_snapshot st nodeID = Some s →
  GetCurrentVersion nodeID st = Returned (v, None) st →
  ∃ st1 st2 s' items,
    SetResource nodeID name (ResponseType_of i) value st = Returned tt st1
    ∧ BumpCacheVersion nodeID st1
      = Returned (strconv.wrap_int (v + 1), None) st2
    ∧ SetSnapshot xds_SetSnapshot nodeID snapshotCache st2
      = (Returned tt st2, fst (xds_SetSnapshot nodeID s' snapshotCache))
    ∧ (∀ j : fin UnknownType,
         Version (s' !!! j) = strconv.Itoa (strconv.wrap_int (v + 1)))
    ∧ items_of st (s !!! i) = Some items
    ∧ items_of st2 (s' !!! i) = Some (<[name := value]> items)
    ∧ (∀ j : fin UnknownType, j ≠ i →
         items_of st2 (s' !!! j) = items_of st (s !!! j)).
Proof.
  intros Hwf Hn Hv. pose proof Hwf as (H1 & _).
  pose proof Hn as (l & Hc & Hs)%node_snapshot_Some.
  destruct (H1 nodeID l Hc) as (s0 & Hs0 & Hinit).
  assert (s0 = s) as -> by congruence.
  destruct (Hinit i) as (m & items & Hi & Hm).
  destruct (update_items_frame st nodeID s i m items (<[name := value]> items)
              Hwf Hn Hi Hm) as (Hn' & Hi' & Hj' & _).
  apply GetCurrentVersion_inv in Hv as (l0 & s0 & Hc0 & Hs0' & Ha).
  assert (l0 = l) as -> by congruence. assert (s0 = s) as -> by congruence.
  set (st1 := set_maps (λ h, <[m := <[name := value]> items]> h) st) in *.
  set (sv := strconv.Itoa (strconv.wrap_int (v + 1))).
  exists st1, (assign l (restamp sv s) st1), (restamp sv s), items.
  split; [apply (SetResource_eq st nodeID name value s i m items Hn Hi Hm)|].
  split; [apply (BumpCacheVersion_eq st1 nodeID l s v Hc Hs Ha)|].
  split; [apply SetSnapshot_eq; by apply (assign_node_snapshot st1 nodeID l _ s)|].
  split; [intros j; by rewrite restamp_lookup|].
  split; [unfold items_of; by rewrite Hi|].
  split; [by rewrite (restamp_items sv st1)|].
  intros j Hj. rewrite (restamp_items sv st1) by done. by apply Hj'.
Qed.


(** ** The stores the package builds *)

(** X22.  In every store reached from [NewCache] by the operations of the
    package, no operation on a node that is in the cache panics, given one
    of the six resource types: [SetResource], [GetResource],
    [DeleteResource], [ClearResources] and [SetSnapshot] return, and
    [GetNodeCache] returns a pointer to the struct of the node. *)
Theorem reachable_never_panics st nodeID l name (i : fin UnknownType) value
    snapshotCache :
  reachable xds_SetSnapshot st →
  GetNodeCache nodeID st = Returned (Some l) st →
  ∃ s, snapshots st !! l = Some s
    ∧ (∃ st', SetResource nodeID name (ResponseType_of i) value st = Returned tt st')
    ∧ (∃ r, GetResource nodeID name (ResponseType_of i) st = Returned r st)
    ∧ (∃ st', DeleteResource nodeID name (ResponseType_of i) st = Returned tt st')
    ∧ (∃ st', ClearResources nodeID (ResponseType_of i) st = Returned tt st')
    ∧ SetSnapshot xds_SetSnapshot nodeID snapshotCache st
      = (Returned tt st, fst (xds_SetSnapshot nodeID s snapshotCache)).
Proof.
  intros (H1 & _)%reachable_wf Hg.
  unfold GetNodeCache, index_cache in Hg. injection Hg as Hc.
  destruct (H1 nodeID l Hc) as (s & Hs & Hinit).
  assert (Hn : node_snapshot st nodeID = Some s) by (apply node_snapshot_Some; eauto).
  destruct (Hinit i) as (m & items & Hi & Hm).
  exists s. split; [done|].
  split; [eexists; apply (SetResource_eq st nodeID name value s i m items Hn Hi Hm)|].
  split; [eexists; apply (GetResource_eq st nodeID name s i m items Hn Hi Hm)|].
  split; [eexists; apply (DeleteResource_eq st nodeID name s i m items Hn Hi Hm)|].
  split; [eexists; apply (ClearResources_eq st nodeID l s i Hc Hs)|].
  by apply SetSnapshot_eq.
Qed.

(** The versions of the stores the package builds: the six collections of
    a node carry one and the same version, the decimal of an [int]. *)
Lemma reachable_versions st :
  reachable xds_SetSnapshot st →
  ∀ n s, node_snapshot st n = Some s →
    ∃ v, strconv.minInt ≤ v ≤ strconv.maxInt
         ∧ ∀ i : fin UnknownType, Version (s !!! i) = strconv.Itoa v.
Proof.
  induction 1 as [|o st Hreach IH]; intros n s' Hn'.
  { apply node_snapshot_Some in Hn' as (l & Hc & _).
    unfold cache_index in Hc. simpl in Hc. by rewrite lookup_empty in Hc. }
  pose proof (reachable_wf xds_SetSnapshot st Hreach) as Hwf.
  destruct (decide (n = target o)) as [->|Hne].
  2:{ destruct (touches_only_same_entry st (run xds_SetSnapshot o st) (target o) n
                  Hwf (run_touches_only xds_SetSnapshot o st) Hne) as (_ & Hsame & _).
      rewrite Hsame in Hn'. by apply (IH n). }
  destruct o as [n|n|n|n name rtype value|n name rtype|n name rtype|n rtype|n d|n|n];
    cbn [run target] in *.
  - rewrite NewNodeCache_snapshot in Hn'. injection Hn' as <-.
    exists 1. split; [done|]. intros i. index_cases i; reflexivity.
  - apply node_snapshot_Some in Hn' as (l & Hc & _).
    unfold cache_index in Hc. simpl in Hc. by rewrite lookup_delete_eq in Hc.
  - by apply (IH n).
  - destruct (SetResource_final st n name rtype value)
      as [Heq | (s & i & m & items & _ & _ & _ & Heq)];
      rewrite Heq in Hn'; by apply (IH n).
  - rewrite GetResource_final in Hn'. by apply (IH n).
  - destruct (DeleteResource_final st n name rtype)
      as [Heq | (s & i & m & items & _ & _ & _ & Heq)];
      rewrite Heq in Hn'; by apply (IH n).
  - destruct (ClearResources_final st n rtype)
      as [Heq | (l & s & i & Hc & Hs & Heq)];
      rewrite Heq in Hn'; [by apply (IH n)|].
    apply node_snapshot_Some in Hn' as (l' & Hc' & Hs').
    assert (l' = l) as -> by (unfold cache_index in *; simpl in *; congruence).
    simpl in Hs'. rewrite list_lookup_insert_eq in Hs'
      by (eapply lookup_lt_Some, Hs).
    injection Hs' as <-.
    destruct (IH n s) as (v & Hv & Hall); [apply node_snapshot_Some; eauto|].
    exists v. split; [done|]. intros j. unfold Snapshot in *.
    destruct (decide (j = i)) as [->|Hj].
    + rewrite vlookup_insert. simpl. apply Hall.
    + rewrite vlookup_insert_ne by done. apply Hall.
  - rewrite SetSnapshot_final in Hn'. by apply (IH n).
  - rewrite GetCurrentVersion_final in Hn'. by apply (IH n).
  - destruct (BumpCacheVersion_cases st n)
      as [[p Heq] | [[e Heq] | (l & s & v & Hc & Hs & Ha & Heq)]];
      rewrite Heq in Hn'; cbn [final_state] in Hn'; [by apply (IH n)..|].
    rewrite (assign_node_snapshot st n l _ s Hc Hs) in Hn'. injection Hn' as <-.
    exists (strconv.wrap_int (v + 1)). split; [apply wrap_int_range|].
    intros j. by rewrite restamp_lookup.
Qed.

(** X23.  In every store reached from [NewCache] by the operations of the
    package, the six collections of a node carry one and the same version,
    and it is the decimal of an [int]: [GetCurrentVersion] returns that
    [int] and [BumpCacheVersion] its successor in [int], neither ever
    returns an error. *)
Theorem reachable_version_reads st nodeID s :
  reachable xds_SetSnapshot st →
  node_snapshot st nodeID = Some s →
  ∃ v st',
    (∀ i : fin UnknownType, Version (s !!! i) = strconv.Itoa v)
    ∧ GetCurrentVersion nodeID st = Returned (v, None) st
    ∧ BumpCacheVersion nodeID st
      = Returned (if v =? strconv.maxInt then strconv.minInt else v + 1, None) st'.
Proof.
  intros Hreach Hn.
  destruct (reachable_versions st Hreach nodeID s Hn) as (v & Hv & Hall).
  apply node_snapshot_Some in Hn as (l & Hc & Hs).
  assert (Ha : strconv.Atoi (Version (s !!! 0%fin)) = (v, None)).
  { rewrite Hall. by apply Atoi_Itoa_ok. }
  eexists v, _. split; [done|]. split.
  - by rewrite (GetCurrentVersion_eq st nodeID l s Hc Hs), Ha.
  - rewrite <- (wrap_int_succ v) by done.
    apply (BumpCacheVersion_eq st nodeID l s v Hc Hs Ha).
Qed.

(** X24.  The invariant the package keeps: in every store reached from
    [NewCache] by its operations, in whatever order and whether they return
    or panic, every node of the cache points to a struct whose six
    collections each have an item map, no two nodes point to the same
    struct, and no two collections, of one node or of two, share a map. *)
Theorem package_stores_well_formed st :
  reachable xds_SetSnapshot st → cache_wf st.
Proof. apply reachable_wf. Qed.

End Coverage.

End Properties.

(** * The claims on concrete stores *)

Import Examples.

(** The store with the three resources is one the package builds, and the
    snapshot of its node is initialized. *)
Lemma with_resources_wf : cache_wf with_resources.
Proof.
  apply (run_wf accepting (OpSetResource "n1" "l1" Listener (Some "L1"%string))),
    (run_wf accepting (OpSetResource "n1" "c2" Cluster (Some "V2"%string))),
    (run_wf accepting (OpSetResource "n1" "c1" Cluster (Some "V1"%string))),
    (run_wf accepting (OpNewNodeCache "n1")), NewCache_wf.
Qed.

Lemma with_resources_initialized :
  initialized with_resources (fresh_snapshot 0%nat).
Proof.
  destruct with_resources_wf as (H1 & _).
  destruct (H1 "n1"%string 0%nat) as (s & Hs & Hinit); [vm_compute; reflexivity|].
  vm_compute in Hs. injection Hs as <-. exact Hinit.
Qed.

(** C1: a node at version 1 is bumped to version 2. *)
Lemma BumpCacheVersion_increments_witness :
  ∃ st' s',
    BumpCacheVersion "n1" one_node = Returned (2, None) st'
    ∧ node_snapshot st' "n1" = Some s'
    ∧ ∀ i : fin UnknownType,
        Version (s' !!! i) = "2"%string
        ∧ Items (s' !!! i) = Items (fresh_snapshot 0%nat !!! i)
        ∧ items_of st' (s' !!! i) = items_of one_node (fresh_snapshot 0%nat !!! i).
Proof.
  apply (BumpCacheVersion_increments one_node "n1" (fresh_snapshot 0%nat) 1);
    vm_compute; reflexivity.
Defined.

(** C1, as stated, fails at the largest [int]: the version read is
    9223372036854775807 and the version returned is -9223372036854775808. *)
Lemma bump_adds_one_counterexample :
  ¬ bump_adds_one
      (with_versions "9223372036854775807" "9223372036854775807"
         "9223372036854775807" "9223372036854775807" "9223372036854775807"
         "9223372036854775807") "n1".
Proof.
  intros H. destruct (H 9223372036854775807) as [st' Hst'].
  - vm_compute. reflexivity.
  - vm_compute in Hst'. discriminate.
Qed.

(** C2: in the empty cache every operation on ["n1"] panics. *)
Lemma absent_node_panics_witness :
  cache_index (NewCache (Message:=string)) "n1" = None
  ∧ BumpCacheVersion "n1" (NewCache (Message:=string))
    = Panicked NilDereference NewCache.
Proof.
  split; [reflexivity|].
  apply (absent_node_panics (Message:=string) NewCache "n1" "c1" Cluster None).
  reflexivity.
Defined.

(** C2, as stated, fails in the empty cache: no error is returned. *)
Lemma absent_node_is_an_error_counterexample :
  ¬ absent_node_is_an_error (NewCache (Message:=string)) "n1".
Proof.
  intros H. destruct (H eq_refl) as [_ (v & e & st' & Hst')].
  vm_compute in Hst'. discriminate.
Qed.

(** C4: setting, reading, deleting and reading the cluster ["c1"]. *)
Lemma GetResource_after_write_witness :
  (∃ st', SetResource "n1" "c1" Cluster (Some "V1"%string) one_node = Returned tt st'
          ∧ GetResource "n1" "c1" Cluster st' = Returned (Some "V1"%string) st')
  ∧ (∃ st', DeleteResource "n1" "c1" Cluster one_node = Returned tt st'
            ∧ GetResource "n1" "c1" Cluster st' = Returned None st').
Proof.
  apply (GetResource_after_write one_node "n1" "c1" (Some "V1"%string)
           (fresh_snapshot 0%nat) 1%fin).
  - vm_compute. reflexivity.
  - exists 2%nat, ∅. split; vm_compute; reflexivity.
Defined.

(** C5: the version ["x"] does not parse, and nothing is written. *)
Lemma BumpCacheVersion_corrupt_version_witness :
  BumpCacheVersion "n1" (with_versions "x" "1" "1" "1" "1" "1")
  = Returned (0, Some (strconv.mkNumError "Atoi" "x" strconv.ErrSyntax))
      (with_versions "x" "1" "1" "1" "1" "1").
Proof.
  apply (BumpCacheVersion_corrupt_version _ "n1" (versions "x" "1" "1" "1" "1" "1") 0);
    vm_compute; reflexivity.
Defined.

(** C6: the version read in a new node is the decimal integer 1. *)
Lemma GetCurrentVersion_fails_iff_witness :
  GetCurrentVersion "n1" one_node = Returned (1, None) one_node.
Proof.
  apply (GetCurrentVersion_fails_iff one_node "n1" (fresh_snapshot 0%nat)).
  - vm_compute. reflexivity.
  - split; [reflexivity|]. vm_compute. split; discriminate.
Defined.

(** C6, as stated, fails at the version ["0"]: it is not a positive
    integer, and [GetCurrentVersion] returns 0 without an error. *)
Lemma version_fails_iff_not_positive_counterexample :
  ¬ version_fails_iff_not_positive (with_versions "0" "0" "0" "0" "0" "0") "n1".
Proof.
  intros H. destruct (H (versions "0" "0" "0" "0" "0" "0")) as [_ H'].
  - vm_compute. reflexivity.
  - destruct H' as (v & e & Hv); [reflexivity|].
    vm_compute in Hv. discriminate.
Qed.

(** C7: the layer receives the snapshot of ["n1"] under its name. *)
Lemma SetSnapshot_hands_over_witness :
  SetSnapshot accepting "n1" [] one_node
  = (Returned tt one_node, [("n1"%string, fresh_snapshot 0%nat)]).
Proof.
  apply (SetSnapshot_hands_over accepting one_node "n1" 0%nat (fresh_snapshot 0%nat) []);
    vm_compute; reflexivity.
Defined.

(** C7, as stated, fails with a layer that refuses the snapshot:
    [SetSnapshot] returns as it does when the layer accepts it. *)
Lemma publish_surfaces_failure_counterexample :
  ¬ publish_surfaces_failure rejecting one_node "n1" [].
Proof.
  intros H.
  apply (H (fresh_snapshot 0%nat) "snapshot rejected"%string) with (st' := one_node);
    vm_compute; reflexivity.
Qed.

(** C8: clearing the clusters of a node that has two, and a listener: the
    clusters are gone, the listener and the versions stay. *)
Lemma ClearResources_frame_witness :
  GetResource "n1" "c1" Cluster with_resources
  = Returned (Some "V1"%string) with_resources
  ∧ ∃ st' s',
      ClearResources "n1" Cluster with_resources = Returned tt st'
      ∧ node_snapshot st' "n1" = Some s'
      ∧ allocated st' (s' !!! 1%fin)
      ∧ (∃ m, Items (s' !!! 1%fin) = Some m
              ∧ maps with_resources !! m = None ∧ maps st' !! m = Some ∅)
      ∧ items_of st' (s' !!! 1%fin) = Some ∅
      ∧ (∀ name, GetResource "n1" name Cluster st' = Returned None st')
      ∧ (∀ j : fin UnknownType, j ≠ 1%fin →
           Items (s' !!! j) = Items (fresh_snapshot 0%nat !!! j)
           ∧ items_of st' (s' !!! j)
             = items_of with_resources (fresh_snapshot 0%nat !!! j))
      ∧ (∀ j : fin UnknownType,
           Version (s' !!! j) = Version (fresh_snapshot 0%nat !!! j)).
Proof.
  split; [vm_compute; reflexivity|].
  apply (ClearResources_frame with_resources "n1" (fresh_snapshot 0%nat) 1%fin).
  - vm_compute. reflexivity.
  - exact with_resources_initialized.
Defined.

(** C9: setting a cluster of ["n1"] leaves the entry of ["n2"] alone. *)
Lemma other_nodes_unchanged_witness :
  same_entry two_nodes
    (run accepting (OpSetResource "n1" "c1" Cluster (Some "V1"%string)) two_nodes)
    "n2".
Proof.
  apply (other_nodes_unchanged accepting).
  - apply (run_wf accepting (OpNewNodeCache "n2")),
      (run_wf accepting (OpNewNodeCache "n1")), NewCache_wf.
  - discriminate.
Defined.

(** C10: the version is read from the Endpoint collection, whatever the
    other five say, and written to all six. *)
Lemma version_read_from_Endpoint_witness :
  GetCurrentVersion "n1" (with_versions "5" "1" "2" "x" "" "9")
  = Returned (5, None) (with_versions "5" "1" "2" "x" "" "9")
  ∧ ∃ st' s',
      BumpCacheVersion "n1" (with_versions "5" "1" "2" "x" "" "9")
      = Returned (6, None) st'
      ∧ node_snapshot st' "n1" = Some s'
      ∧ ∀ i : fin UnknownType, Version (s' !!! i) = "6"%string.
Proof.
  destruct (version_read_from_Endpoint (with_versions "5" "1" "2" "x" "" "9") "n1"
              (versions "5" "1" "2" "x" "" "9")) as [Hget Hbump].
  - vm_compute. reflexivity.
  - split; [exact Hget|]. apply (Hbump 5). vm_compute. reflexivity.
Defined.

(** C10, as stated, fails when the Endpoint collection is at the largest
    [int]: the six collections are set to "-9223372036854775808". *)
Lemma bump_resyncs_to_Endpoint_plus_one_counterexample :
  ¬ bump_resyncs_to_Endpoint_plus_one
      (with_versions "9223372036854775807" "7" "7" "7" "7" "7") "n1".
Proof.
  intros H.
  destruct (H (versions "9223372036854775807" "7" "7" "7" "7" "7")
              9223372036854775807) as (st' & s' & Hst' & _).
  - vm_compute. reflexivity.
  - vm_compute. reflexivity.
  - vm_compute in Hst'. discriminate.
Qed.

(** * The further properties on concrete stores *)

(** The example stores are stores the package builds. *)
Lemma one_node_wf : cache_wf one_node.
Proof. apply (run_wf accepting (OpNewNodeCache "n1")), NewCache_wf. Qed.

Lemma two_nodes_wf : cache_wf two_nodes.
Proof. apply (run_wf accepting (OpNewNodeCache "n2")), one_node_wf. Qed.

Lemma one_node_reachable : reachable accepting one_node.
Proof. apply (reachable_run _ _ _ accepting (OpNewNodeCache "n1")), reachable_new. Qed.

Lemma fresh_snapshot_initialized (st : State string) :
  initialized (final_state (NewNodeCache "n1" st)) (fresh_snapshot (length (maps st))).
Proof.
  intros i. rewrite NewNodeCache_eq.
  destruct (fresh_snapshot_items (maps st) i) as (m & Hm & Hl).
  exists m, ∅. split; [exact Hm | exact Hl].
Qed.

(** X1: the version 42 written and read back. *)
Lemma Itoa_then_Atoi_witness :
  strconv.Atoi (strconv.Itoa 42) = (42, None)
  ∧ strconv.decimal_integer (strconv.Itoa 42) = Some 42.
Proof. apply (Itoa_then_Atoi 42). vm_compute. split; discriminate. Defined.

(** X2: a new node bumped once reads version 2. *)
Lemma GetCurrentVersion_after_bump_witness :
  GetCurrentVersion "n1" (final_state (BumpCacheVersion "n1" one_node))
  = Returned (2, None) (final_state (BumpCacheVersion "n1" one_node))
  ∧ strconv.minInt ≤ 2 ≤ strconv.maxInt.
Proof.
  apply (GetCurrentVersion_after_bump one_node "n1" 2). vm_compute. reflexivity.
Defined.

(** X3: a new node bumped three times reads version 4. *)
Lemma bumps_add_up_witness :
  GetCurrentVersion "n1"
    (Nat.iter 3 (λ st, final_state (BumpCacheVersion "n1" st)) one_node)
  = Returned (1 + 3, None)
      (Nat.iter 3 (λ st, final_state (BumpCacheVersion "n1" st)) one_node).
Proof.
  apply (bumps_add_up one_node "n1" 1 3); vm_compute; [reflexivity | discriminate].
Defined.

(** X18: a bump leaves the pointer of the node as it is. *)
Lemma node_pointer_stable_witness :
  GetNodeCache "n1" (run accepting (OpBumpCacheVersion "n1") one_node)
  = Returned (cache_index one_node "n1")
      (run accepting (OpBumpCacheVersion "n1") one_node).
Proof. apply (node_pointer_stable accepting); discriminate. Defined.

(** X4: the resource type 6, [UnknownType], is out of range. *)
Lemma unknown_type_panics_witness :
  SetResource "n1" "c1" 6 (Some "V1"%string) one_node = Panicked IndexOutOfRange one_node
  ∧ GetResource "n1" "c1" 6 one_node = Panicked IndexOutOfRange one_node
  ∧ DeleteResource "n1" "c1" 6 one_node = Panicked IndexOutOfRange one_node
  ∧ ClearResources "n1" 6 one_node = Panicked IndexOutOfRange one_node.
Proof.
  apply (unknown_type_panics one_node "n1" "c1" 6 (Some "V1"%string)
           (fresh_snapshot 0%nat)).
  - vm_compute. reflexivity.
  - change (Z.of_nat UnknownType) with 6. lia.
Defined.

(** X5: a zero-value snapshot put into the cache by hand: its maps are nil. *)
Lemma nil_items_map_witness :
  SetResource "n1" "c1" Cluster (Some "V1"%string)
    (mkState [vreplicate UnknownType zero_Resources] [] {[ "n1"%string := Some 0%nat ]})
  = Panicked AssignmentToNilMap
      (mkState [vreplicate UnknownType zero_Resources] [] {[ "n1"%string := Some 0%nat ]}).
Proof.
  apply (nil_items_map (Message:=string)
           (mkState [vreplicate UnknownType zero_Resources] []
              {[ "n1"%string := Some 0%nat ]})
           "n1" "c1" (Some "V1"%string) (vreplicate UnknownType zero_Resources) 1%fin);
    vm_compute; reflexivity.
Defined.

(** X6: setting a cluster of a new node. *)
Lemma SetResource_frame_witness :
  ∃ st' items,
    SetResource "n1" "c1" Cluster (Some "V1"%string) one_node = Returned tt st'
    ∧ items_of one_node (fresh_snapshot 0%nat !!! 1%fin) = Some items
    ∧ node_snapshot st' "n1" = Some (fresh_snapshot 0%nat)
    ∧ items_of st' (fresh_snapshot 0%nat !!! 1%fin)
      = Some (<[ "c1"%string := Some "V1"%string ]> items)
    ∧ (∀ j : fin UnknownType, j ≠ 1%fin →
         items_of st' (fresh_snapshot 0%nat !!! j)
         = items_of one_node (fresh_snapshot 0%nat !!! j))
    ∧ (∀ name' (j : fin UnknownType), j ≠ 1%fin ∨ name' ≠ "c1"%string →
         ∃ r, GetResource "n1" name' (ResponseType_of j) one_node = Returned r one_node
              ∧ GetResource "n1" name' (ResponseType_of j) st' = Returned r st').
Proof.
  apply (SetResource_frame one_node "n1" "c1" (Some "V1"%string)
           (fresh_snapshot 0%nat) 1%fin).
  - exact one_node_wf.
  - vm_compute. reflexivity.
Defined.

(** X7: deleting the cluster ["c1"] of a node that has the clusters ["c1"]
    and ["c2"] and a listener: ["c1"] goes, the rest stays. *)
Lemma DeleteResource_frame_witness :
  GetResource "n1" "c1" Cluster with_resources
  = Returned (Some "V1"%string) with_resources
  ∧ ∃ st' items,
      DeleteResource "n1" "c1" Cluster with_resources = Returned tt st'
      ∧ items_of with_resources (fresh_snapshot 0%nat !!! 1%fin) = Some items
      ∧ node_snapshot st' "n1" = Some (fresh_snapshot 0%nat)
      ∧ items_of st' (fresh_snapshot 0%nat !!! 1%fin)
        = Some (delete "c1"%string items)
      ∧ (∀ j : fin UnknownType, j ≠ 1%fin →
           items_of st' (fresh_snapshot 0%nat !!! j)
           = items_of with_resources (fresh_snapshot 0%nat !!! j))
      ∧ (∀ name' (j : fin UnknownType), j ≠ 1%fin ∨ name' ≠ "c1"%string →
           ∃ r, GetResource "n1" name' (ResponseType_of j) with_resources
                = Returned r with_resources
                ∧ GetResource "n1" name' (ResponseType_of j) st' = Returned r st').
Proof.
  split; [vm_compute; reflexivity|].
  apply (DeleteResource_frame with_resources "n1" "c1" (fresh_snapshot 0%nat) 1%fin).
  - exact with_resources_wf.
  - vm_compute. reflexivity.
Defined.

(** X9: deleting a cluster that a new node does not have. *)
Lemma DeleteResource_absent_witness :
  DeleteResource "n1" "c1" Cluster one_node = Returned tt one_node.
Proof.
  apply (DeleteResource_absent one_node "n1" "c1" (fresh_snapshot 0%nat) 1%fin ∅);
    vm_compute; reflexivity.
Defined.

(** X10: setting and deleting a cluster of a new node. *)
Lemma SetResource_then_DeleteResource_witness :
  ∃ st',
    SetResource "n1" "c1" Cluster (Some "V1"%string) one_node = Returned tt st'
    ∧ DeleteResource "n1" "c1" Cluster st' = Returned tt one_node.
Proof.
  apply (SetResource_then_DeleteResource one_node "n1" "c1" (Some "V1"%string)
           (fresh_snapshot 0%nat) 1%fin ∅).
  - vm_compute. reflexivity.
  - exists 2%nat, ∅. split; vm_compute; reflexivity.
  - vm_compute. reflexivity.
  - vm_compute. reflexivity.
Defined.

(** X11: a cluster of one node and a listener of another, in either order. *)
Lemma SetResource_commutes_witness :
  ∃ st1 st2 st',
    SetResource "n1" "c1" Cluster (Some "V1"%string) two_nodes = Returned tt st1
    ∧ SetResource "n2" "l1" Listener (Some "V2"%string) st1 = Returned tt st'
    ∧ SetResource "n2" "l1" Listener (Some "V2"%string) two_nodes = Returned tt st2
    ∧ SetResource "n1" "c1" Cluster (Some "V1"%string) st2 = Returned tt st'.
Proof.
  apply (SetResource_commutes two_nodes "n1" "c1" 1%fin (Some "V1"%string)
           "n2" "l1" 3%fin (Some "V2"%string)
           (fresh_snapshot 0%nat) (fresh_snapshot 6%nat)).
  - exact two_nodes_wf.
  - vm_compute. reflexivity.
  - vm_compute. reflexivity.
  - left. discriminate.
Defined.

(** X14: deleting a node of the empty cache. *)
Lemma DeleteNodeCache_absent_witness :
  DeleteNodeCache "n1" (NewCache (Message:=string)) = Returned tt NewCache.
Proof. apply (DeleteNodeCache_absent (Message:=string) NewCache "n1"). reflexivity. Defined.

(** X16: creating the node ["n1"] a second time. *)
Lemma NewNodeCache_replaces_witness :
  ∃ st' l' s',
    NewNodeCache "n1" one_node = Returned tt st'
    ∧ GetNodeCache "n1" st' = Returned (Some l') st'
    ∧ l' ≠ 0%nat
    ∧ snapshots st' !! l' = Some s'
    ∧ snapshots st' !! 0%nat = Some (fresh_snapshot 0%nat)
    ∧ (∀ j : fin UnknownType,
         items_of st' (fresh_snapshot 0%nat !!! j)
         = items_of one_node (fresh_snapshot 0%nat !!! j))
    ∧ (∀ i j : fin UnknownType,
         Items (s' !!! i) ≠ Items (fresh_snapshot 0%nat !!! j)).
Proof.
  apply (NewNodeCache_replaces one_node "n1" 0%nat (fresh_snapshot 0%nat)).
  - vm_compute. reflexivity.
  - exact (fresh_snapshot_initialized NewCache).
Defined.

(** X19: clearing the clusters of a new node leaves, in the snapshot taken
    before, the items of every collection, those of the clusters included. *)
Lemma earlier_snapshot_keeps_items_witness :
  node_snapshot one_node "n1" = Some (fresh_snapshot 0%nat)
  ∧ ∀ j : fin UnknownType,
      items_of (run accepting (OpClearResources "n1" Cluster) one_node)
        (fresh_snapshot 0%nat !!! j)
      = items_of one_node (fresh_snapshot 0%nat !!! j).
Proof.
  split; [vm_compute; reflexivity|].
  apply (earlier_snapshot_keeps_items accepting); [discriminate | discriminate |].
  exact (fresh_snapshot_initialized NewCache).
Defined.

(** X20: publishing a new node, setting a cluster, publishing again. *)
Lemma republish_without_bump_witness :
  ∃ st' items,
    SetSnapshot accepting "n1" [] one_node
    = (Returned tt one_node, fst (accepting "n1" (fresh_snapshot 0%nat) []))
    ∧ SetResource "n1" "c1" Cluster (Some "V1"%string) one_node = Returned tt st'
    ∧ SetSnapshot accepting "n1" [("n1"%string, fresh_snapshot 0%nat)] st'
      = (Returned tt st',
         fst (accepting "n1" (fresh_snapshot 0%nat) [("n1"%string, fresh_snapshot 0%nat)]))
    ∧ items_of one_node (fresh_snapshot 0%nat !!! 1%fin) = Some items
    ∧ items_of st' (fresh_snapshot 0%nat !!! 1%fin)
      = Some (<[ "c1"%string := Some "V1"%string ]> items).
Proof.
  apply (republish_without_bump accepting one_node "n1" "c1" (Some "V1"%string)
           (fresh_snapshot 0%nat) 1%fin [] [("n1"%string, fresh_snapshot 0%nat)]).
  - exact one_node_wf.
  - vm_compute. reflexivity.
Defined.

(** X21: setting a cluster of a new node, bumping it to version 2, publishing. *)
Lemma publish_after_update_witness :
  ∃ st1 st2 s' items,
    SetResource "n1" "c1" Cluster (Some "V1"%string) one_node = Returned tt st1
    ∧ BumpCacheVersion "n1" st1 = Returned (strconv.wrap_int (1 + 1), None) st2
    ∧ SetSnapshot accepting "n1" [] st2
      = (Returned tt st2, fst (accepting "n1" s' []))
    ∧ (∀ j : fin UnknownType,
         Version (s' !!! j) = strconv.Itoa (strconv.wrap_int (1 + 1)))
    ∧ items_of one_node (fresh_snapshot 0%nat !!! 1%fin) = Some items
    ∧ items_of st2 (s' !!! 1%fin) = Some (<[ "c1"%string := Some "V1"%string ]> items)
    ∧ (∀ j : fin UnknownType, j ≠ 1%fin →
         items_of st2 (s' !!! j) = items_of one_node (fresh_snapshot 0%nat !!! j)).
Proof.
  apply (publish_after_update accepting one_node "n1" "c1" (Some "V1"%string)
           (fresh_snapshot 0%nat) 1%fin 1 []).
  - exact one_node_wf.
  - vm_compute. reflexivity.
  - vm_compute. reflexivity.
Defined.

(** X22: no operation on the node of a cache with one new node panics. *)
Lemma reachable_never_panics_witness :
  ∃ s, snapshots one_node !! 0%nat = Some s
    ∧ (∃ st', SetResource "n1" "c1" Cluster (Some "V1"%string) one_node = Returned tt st')
    ∧ (∃ r, GetResource "n1" "c1" Cluster one_node = Returned r one_node)
    ∧ (∃ st', DeleteResource "n1" "c1" Cluster one_node = Returned tt st')
    ∧ (∃ st', ClearResources "n1" Cluster one_node = Returned tt st')
    ∧ SetSnapshot accepting "n1" [] one_node
      = (Returned tt one_node, fst (accepting "n1" s [])).
Proof.
  apply (reachable_never_panics accepting one_node "n1" 0%nat "c1" 1%fin
           (Some "V1"%string) []).
  - exact one_node_reachable.
  - vm_compute. reflexivity.
Defined.

(** X23: the version of a new node, and its bump. *)
Lemma reachable_version_reads_witness :
  ∃ v st',
    (∀ i : fin UnknownType, Version (fresh_snapshot 0%nat !!! i) = strconv.Itoa v)
    ∧ GetCurrentVersion "n1" one_node = Returned (v, None) one_node
    ∧ BumpCacheVersion "n1" one_node
      = Returned (if v =? strconv.maxInt then strconv.minInt else v + 1, None) st'.
Proof.
  apply (reachable_version_reads accepting one_node "n1" (fresh_snapshot 0%nat)).
  - exact one_node_reachable.
  - vm_compute. reflexivity.
Defined.

(** X12: clearing the clusters of a new node, then setting one. *)
Lemma ClearResources_detaches_witness :
  ∃ st1 st2,
    ClearResources "n1" Cluster one_node = Returned tt st1
    ∧ SetResource "n1" "c1" Cluster (Some "V1"%string) st1 = Returned tt st2
    ∧ GetResource "n1" "c1" Cluster st2 = Returned (Some "V1"%string) st2
    ∧ ∀ j : fin UnknownType,
        items_of st2 (fresh_snapshot 0%nat !!! j)
        = items_of one_node (fresh_snapshot 0%nat !!! j).
Proof.
  apply (ClearResources_detaches one_node "n1" "c1" (Some "V1"%string)
           (fresh_snapshot 0%nat) 1%fin).
  - vm_compute. reflexivity.
  - exact (fresh_snapshot_initialized NewCache).
Defined.

(** X13: a version too large for [int]: [Atoi] gives the largest [int] with its
    range error, and both operations return 0 with that error. *)
Lemma version_error_reports_witness :
  strconv.Atoi "99999999999999999999"
  = (strconv.maxInt,
     Some (strconv.mkNumError "Atoi" "99999999999999999999" strconv.ErrRange))
  ∧ BumpCacheVersion "n1" (with_versions "99999999999999999999" "1" "1" "1" "1" "1")
    = Returned
        (0, Some (strconv.mkNumError "Atoi" "99999999999999999999" strconv.ErrRange))
        (with_versions "99999999999999999999" "1" "1" "1" "1" "1").
Proof.
  split; [vm_compute; reflexivity|].
  apply (version_error_reports
           (with_versions "99999999999999999999" "1" "1" "1" "1" "1") "n1" 0
           (strconv.mkNumError "Atoi" "99999999999999999999" strconv.ErrRange)
           (with_versions "99999999999999999999" "1" "1" "1" "1" "1")).
  vm_compute. reflexivity.
Defined.

(** X24: the cache with one new node is well formed. *)
Lemma package_stores_well_formed_witness : cache_wf one_node.
Proof. apply (package_stores_well_formed accepting), one_node_reachable. Defined.
